(** * pyrosimple.scripts.base: command line script support

    A shallow embedding of [src/pyrosimple/scripts/base.py] (classes
    [ScriptBase] and [ScriptBaseWithConfig]) together with the properties
    of connection-alias resolution, option registration, the [run]
    skeleton and the RPC usage summary.

    Conventions of the embedding:
    - a Python [str] is a [string]; every character is read as a code
      point below 256;
    - a Python [dict] with string keys is a [gmap string _];
    - a Python [float] is a binary64 [spec_float];
    - a call that may raise returns a [result]; code that also prints,
      logs or mutates [self] runs in the monad [Lifecycle.M]. *)

From Stdlib Require Import ZArith String Ascii List Bool Lia SpecFloat.
From stdpp Require Import base option gmap strings pretty sorting.
Import ListNotations.

Local Open Scope Z_scope.
Local Open Scope string_scope.

(** ** Python values and their textual forms *)

Module Py.

(** The exceptions the script base raises or classifies.
    [LoggableError] is [pyrosimple.error.LoggableError]; [OSError]
    carries [exc.errno] and [str(exc)]; [SystemExit] carries the status
    handed to [sys.exit]. *)
Inductive exn : Type :=
| LoggableError (msg : string)
| KeyboardInterrupt
| OSError (errno : option Z) (text : string)
| SystemExit (code : Z)
| KeyError (key : string)
| IndexError (what : string)
| TypeError (what : string)
| ValueError (what : string)
| OverflowError (what : string)
| AttributeError (attr : string)
| OtherError (cls : string) (msg : string).

Inductive result (A : Type) : Type :=
| Ok (a : A)
| Raise (e : exn).
Arguments Ok {A} a.
Arguments Raise {A} e.

Definition rbind {A B} (r : result A) (k : A -> result B) : result B :=
  match r with
  | Ok a => k a
  | Raise e => Raise e
  end.

(** Values that occur as keyword arguments and parsed options. [PType]
    is a class object used as a coercion, e.g. [int]. *)
#[warnings="-register-all"]
Inductive pyval : Type :=
| PNone
| PBool (b : bool)
| PInt (z : Z)
| PStr (s : string)
| PList (l : list pyval)
| PType (name : string).

(** Truth value testing, as in [if x:]. *)
Definition truthy (v : pyval) : bool :=
  match v with
  | PNone => false
  | PBool b => b
  | PInt z => negb (z =? 0)%Z
  | PStr s => negb (String.eqb s EmptyString)
  | PList l => match l with [] => false | _ => true end
  | PType _ => true
  end.

Definition quote1 : ascii := "'"%char.
Definition quote2 : ascii := "034"%char.
Definition backslash : ascii := "\"%char.

Fixpoint contains_char (c : ascii) (s : string) : bool :=
  match s with
  | EmptyString => false
  | String d r => Ascii.eqb c d || contains_char c r
  end.

Definition hex_digit (n : N) : ascii :=
  match String.get (N.to_nat n) "0123456789abcdef" with
  | Some c => c
  | None => "0"%char
  end.

Definition hex_escape (c : ascii) : string :=
  let n := N_of_ascii c in
  String backslash
    (String "x" (String (hex_digit (n / 16)) (String (hex_digit (n mod 16)) EmptyString))).

(** [str.isprintable] on the code points below 256: the controls, the
    no-break space and the soft hyphen are not printable. *)
Definition printable (c : ascii) : bool :=
  let n := N_of_ascii c in
  ((32 <=? n) && (n <? 127) || (161 <=? n) && negb (n =? 173))%N.

Definition repr_char (q c : ascii) : string :=
  if Ascii.eqb c q || Ascii.eqb c backslash then String backslash (String c EmptyString)
  else if Ascii.eqb c "009" then String backslash "t"
  else if Ascii.eqb c "010" then String backslash "n"
  else if Ascii.eqb c "013" then String backslash "r"
  else if printable c then String c EmptyString
  else hex_escape c.

Fixpoint repr_chars (q : ascii) (s : string) : string :=
  match s with
  | EmptyString => EmptyString
  | String c r => repr_char q c +:+ repr_chars q r
  end.

(** [repr(s)] for a string: single quotes unless the text has a single
    quote and no double quote. *)
Definition repr_str (s : string) : string :=
  let q := if contains_char quote1 s && negb (contains_char quote2 s)
           then quote2 else quote1 in
  String q (repr_chars q s) +:+ String q EmptyString.

Definition bracketed (items : list string) : string :=
  "[" +:+ String.concat ", " items +:+ "]".

(** [repr(v)]. *)
Fixpoint repr (v : pyval) : string :=
  match v with
  | PNone => "None"
  | PBool true => "True"
  | PBool false => "False"
  | PInt z => pretty z
  | PStr s => repr_str s
  | PList l => bracketed (map repr l)
  | PType name => "<class " +:+ repr_str name +:+ ">"
  end.

(** [str(v)], also what an f-string field [{v}] renders. *)
Definition str (v : pyval) : string :=
  match v with
  | PStr s => s
  | _ => repr v
  end.

End Py.

(** ** ConnectionResolver: [ScriptBaseWithConfig.lookup_connection_alias]
    and [multi_connection_lookup] *)

Module Connections.
Import Py.

(** A value of [config.settings["CONNECTIONS"]]: one endpoint or a list
    of endpoints (the [url: str] annotation makes the entries strings). *)
Inductive alias_value : Type :=
| AStr (s : string)
| AList (l : list string).

(** [str(value)] as applied by [lookup_connection_alias]. *)
Definition str_alias (v : alias_value) : string :=
  match v with
  | AStr s => s
  | AList l => bracketed (map repr_str l)
  end.

Section Resolver.

(** [config.settings["CONNECTIONS"]], read-only during a run. *)
Variable CONNECTIONS : gmap string alias_value.

Definition lookup_connection_alias (url : string) : string :=
  match CONNECTIONS !! url with
  | Some v => str_alias v
  | None => url
  end.

(** The generator [multi_connection_lookup], as the finite sequence of
    the values it yields. *)
Definition multi_connection_lookup (url : string) : list string :=
  let val := default (AList [url]) (CONNECTIONS !! url) in
  match val with
  | AList l => map lookup_connection_alias l
  | AStr s => [lookup_connection_alias s]
  end.

End Resolver.

End Connections.

(** ** OptionRegistry: [ScriptBase.add_bool_option] and
    [ScriptBase.add_value_option] *)

Module Options.
Import Py.

Notation "'let?' x := c 'in' k" := (rbind c (fun x => k))
  (at level 10, x name, c at level 100, k at level 200).

(** One call of [parser.add_argument]: positional option strings and
    keyword arguments. *)
Record argument : Type := Argument {
  flags : list string;
  keywords : gmap string pyval
}.

(** The [ArgumentParser], as the arguments registered so far, oldest
    first. The checks argparse itself makes on a registration are not
    part of this module. *)
Definition parser : Type := list argument.

(** [parser.add_argument] for a registration argparse accepts. One it
    rejects (a conflicting option string, a keyword the action does not
    take) raises inside argparse and is not modelled: what is proved of
    a call that returns says what is handed to argparse. *)
Definition add_argument (p : parser) (fl : list string)
    (kw : gmap string pyval) : parser :=
  (p ++ [Argument fl kw])%list.

(** [str.replace] of every [--] by the empty string, left to right. *)
Fixpoint drop_double_dash (s : string) : string :=
  match s with
  | String "-" (String "-" r) => drop_double_dash r
  | String c r => String c (drop_double_dash r)
  | EmptyString => EmptyString
  end.

(** [str.replace] of every [-] by [_]. *)
Fixpoint dash_to_underscore (s : string) : string :=
  match s with
  | String "-" r => String "_" (dash_to_underscore r)
  | String c r => String c (dash_to_underscore r)
  | EmptyString => EmptyString
  end.

(** The destination derived from the first argument that starts with
    [--]: both replacements applied to element [0] of the filtered list. *)
Definition long_option_dest (args : list string) : result string :=
  match List.filter (String.prefix "--") args with
  | [] => Raise (IndexError "list index out of range")
  | o :: _ => Ok (dash_to_underscore (drop_double_dash o))
  end.

Definition getitem (kw : gmap string pyval) (key : string) : result pyval :=
  match kw !! key with
  | Some v => Ok v
  | None => Raise (KeyError key)
  end.

Definition add_bool_option (p : parser) (args : list string)
    (kwargs : gmap string pyval) : result parser :=
  let? dest := long_option_dest args in
  let? help := getitem kwargs "help" in
  Ok (add_argument p args
        (<["dest" := PStr dest]>
           (<["action" := PStr "store_true"]>
              (<["default" := PBool false]> {["help" := help]})))).

(** [h += text] for a string [text]: concatenation on a string, [extend]
    by the characters on a list, a [TypeError] otherwise. *)
Definition iadd_str (h : pyval) (text : string) : result pyval :=
  match h with
  | PStr s => Ok (PStr (s +:+ text))
  | PList l =>
      Ok (PList (l ++ map (fun c => PStr (String c EmptyString))
                           (list_ascii_of_string text))%list)
  | _ => Raise (TypeError "unsupported operand type(s) for +=")
  end.

(** The first statements of [add_value_option]: the metavar from the
    last positional argument, the destination derived when none is
    given, and a truthy default shown in the help text. *)
Definition describe (args : list string)
    (kwargs : gmap string pyval) : result (gmap string pyval) :=
  let? metavar :=
    match last args with
    | Some m => Ok m
    | None => Raise (IndexError "tuple index out of range")
    end in
  let kwargs := <["metavar" := PStr metavar]> kwargs in
  let? kwargs :=
    match kwargs !! "dest" with
    | None =>
        let? dest := long_option_dest args in
        Ok (<["dest" := PStr dest]> kwargs)
    | Some _ => Ok kwargs
    end in
  match kwargs !! "default" with
  | Some d =>
      if truthy d then
        let? help := getitem kwargs "help" in
        let? help := iadd_str help (" [" +:+ str d +:+ "]") in
        Ok (<["help" := help]> kwargs)
      else Ok kwargs
  | None => Ok kwargs
  end.

(** [if "choices" in kwargs: del kwargs["type"]]. *)
Definition drop_type_for_choices
    (kwargs : gmap string pyval) : result (gmap string pyval) :=
  match kwargs !! "choices" with
  | Some _ =>
      match kwargs !! "type" with
      | Some _ => Ok (delete "type" kwargs)
      | None => Raise (KeyError "type")
      end
  | None => Ok kwargs
  end.

Definition add_value_option (p : parser) (args : list string)
    (kwargs : gmap string pyval) : result parser :=
  let? kwargs := describe args kwargs in
  let? kwargs := drop_type_for_choices kwargs in
  Ok (add_argument p (removelast args) kwargs).

End Options.

(** ** Python floats: [int(x)], [round(x, n)] and [repr(x)] *)

Module PyFloat.
Import Py.
Local Open Scope Z_scope.

Definition prec : Z := 53.
Definition emax : Z := 1024.

Definition zero : spec_float := S754_zero false.

(** The double nearest to [num / den], for [den > 0]. *)
Definition of_ratio (neg : bool) (num den : Z) : spec_float :=
  match num, den with
  | Zpos n, Zpos d =>
      SFdiv prec emax (S754_finite neg n 0) (S754_finite false d 0)
  | _, _ => S754_zero neg
  end.

(** [int(x)]: truncation towards zero. *)
Definition int (x : spec_float) : result Z :=
  match x with
  | S754_zero _ => Ok 0
  | S754_finite s m e =>
      let a := Z.shiftl (Zpos m) e in
      Ok (if s then - a else a)
  | S754_infinity _ => Raise (OverflowError "cannot convert float infinity to integer")
  | S754_nan => Raise (ValueError "cannot convert float NaN to integer")
  end.

(** [num / den] rounded to the nearest integer, ties to even. *)
Definition div_half_even (num den : Z) : Z :=
  let q := num / den in
  let r := num mod den in
  match 2 * r ?= den with
  | Lt => q
  | Gt => q + 1
  | Eq => if Z.even q then q else q + 1
  end.

(** [round(x, ndigits)] for [ndigits >= 0]: the exact value is rounded
    half-even to [ndigits] decimals and read back as a double. *)
Definition round (x : spec_float) (ndigits : nat) : spec_float :=
  match x with
  | S754_finite s m e =>
      let scale := 10 ^ Z.of_nat ndigits in
      if 0 <=? e then x
      else of_ratio s (div_half_even (Zpos m * scale) (2 ^ (- e))) scale
  | _ => x
  end.

(** [x = num / den * 10 ^ p >= 1]? *)
Definition ge_pow10 (num den p : Z) : bool :=
  if 0 <=? p then den * 10 ^ p <=? num else den <=? num * 10 ^ (- p).

Fixpoint raise_decpt (fuel : nat) (num den d : Z) : Z :=
  match fuel with
  | O => d
  | S f => if ge_pow10 num den d then raise_decpt f num den (d + 1) else d
  end.

Fixpoint lower_decpt (fuel : nat) (num den d : Z) : Z :=
  match fuel with
  | O => d
  | S f => if ge_pow10 num den (d - 1) then d else lower_decpt f num den (d - 1)
  end.

(** The [d] with [10 ^ (d - 1) <= num / den < 10 ^ d]; the estimate from
    the bit lengths is off by at most two. *)
Definition decpt_of (num den : Z) : Z :=
  let est := (Z.log2 num - Z.log2 den) * 30103 / 100000 in
  raise_decpt 4 num den (lower_decpt 4 num den (est + 1)).

(** The double nearest to [k * 10 ^ p]. *)
Definition of_decimal (k p : Z) : spec_float :=
  if 0 <=? p then of_ratio false (k * 10 ^ p) 1 else of_ratio false k (10 ^ (- p)).

(** The [n]-digit decimal [k * 10 ^ (d - n)] next to [num / den] that
    reads back as [x]; of two such, the nearer one. *)
Definition digits_at (x : spec_float) (num den d : Z) (n : nat) : option Z :=
  let p := d - Z.of_nat n in
  let '(a, b) := if 0 <=? p then (num, den * 10 ^ p) else (num * 10 ^ (- p), den) in
  let lo := a / b in
  let hi := lo + 1 in
  let ok k := SFeqb (of_decimal k p) x in
  match ok lo, ok hi with
  | true, true => Some (if div_half_even a b =? lo then lo else hi)
  | true, false => Some lo
  | false, true => Some hi
  | false, false => None
  end.

Fixpoint shortest (x : spec_float) (num den d : Z) (fuel n : nat) : Z * nat :=
  match digits_at x num den d n, fuel with
  | Some k, _ => (k, n)
  | None, S f => shortest x num den d f (S n)
  | None, O => (div_half_even (num * 10 ^ 17) (den * 10 ^ d), 17%nat)
  end.

Fixpoint strip_zeros (fuel : nat) (k : Z) : Z :=
  match fuel with
  | O => k
  | S f => if (k mod 10 =? 0) && negb (k =? 0) then strip_zeros f (k / 10) else k
  end.

Fixpoint zeros (n : nat) : string :=
  match n with
  | O => EmptyString
  | S m => String "0" (zeros m)
  end.

Definition exp_text (e : Z) : string :=
  let a := pretty (Z.abs e) in
  (if e <? 0 then "-" else "+") +:+ (if Z.abs e <? 10 then "0" +:+ a else a).

(** Format [r] of [0.digits * 10 ^ decpt]. *)
Definition layout (digits : string) (decpt : Z) : string :=
  let n := Z.of_nat (String.length digits) in
  if (decpt <=? -4) || (16 <? decpt) then
    let frac := String.substring 1 (String.length digits - 1) digits in
    String.substring 0 1 digits
      +:+ (if String.eqb frac EmptyString then EmptyString else "." +:+ frac)
      +:+ "e" +:+ exp_text (decpt - 1)
  else if decpt <=? 0 then
    "0." +:+ zeros (Z.to_nat (- decpt)) +:+ digits
  else if n <=? decpt then
    digits +:+ zeros (Z.to_nat (decpt - n)) +:+ ".0"
  else
    String.substring 0 (Z.to_nat decpt) digits +:+ "."
      +:+ String.substring (Z.to_nat decpt) (String.length digits - Z.to_nat decpt) digits.

(** [repr(x)], the text of [f"{x}"]: the shortest digits that read back
    as [x]. *)
Definition repr (x : spec_float) : string :=
  match x with
  | S754_zero s => if s then "-0.0" else "0.0"
  | S754_infinity s => if s then "-inf" else "inf"
  | S754_nan => "nan"
  | S754_finite s m e =>
      let num := if 0 <=? e then Zpos m * 2 ^ e else Zpos m in
      let den := if 0 <=? e then 1 else 2 ^ (- e) in
      let d := decpt_of num den in
      let '(k, n) := shortest (SFabs x) num den d 16 1 in
      let d := if k =? 10 ^ Z.of_nat n then d + 1 else d in
      (if s then "-" else EmptyString) +:+ layout (pretty (strip_zeros 17 k)) d
  end.

End PyFloat.

(** ** RunLifecycle: [ScriptBase.run] and what it calls *)

Module Lifecycle.
Import Py Options.

Inductive stream : Type := Stdout | Stderr.

Inductive log_arg : Type :=
| LStr (s : string)
| LFloat (x : spec_float)
| LExn (e : exn).

(** What a run does to the outside: [print] calls (the text is the
    argument, the newline [print] adds is left out), calls on a logger
    with their level, message and arguments, [setLevel] on the root
    logger, [logging.shutdown()], and the effects of the tool's own
    [mainloop], which the base class never inspects. *)
Inductive event : Type :=
| EvPrint (f : stream) (text : string)
| EvLog (level : Z) (msg : string) (args : list log_arg)
| EvSetLevel (level : Z)
| EvShutdown
| EvTool (what : string).

Definition CRITICAL : Z := 50.
Definition ERROR : Z := 40.
Definition WARNING : Z := 30.
Definition INFO : Z := 20.
Definition DEBUG : Z := 10.
Definition NOTSET : Z := 0.

Definition STD_LOG_LEVEL : Z := INFO.

(** [logging._checkLevel]. *)
Definition check_level (v : pyval) : result Z :=
  match v with
  | PInt z => Ok z
  | PBool b => Ok (if b then 1 else 0)%Z
  | PStr s =>
      if String.eqb s "CRITICAL" || String.eqb s "FATAL" then Ok CRITICAL
      else if String.eqb s "ERROR" then Ok ERROR
      else if String.eqb s "WARN" || String.eqb s "WARNING" then Ok WARNING
      else if String.eqb s "INFO" then Ok INFO
      else if String.eqb s "DEBUG" then Ok DEBUG
      else if String.eqb s "NOTSET" then Ok NOTSET
      else Raise (ValueError ("Unknown level: " +:+ repr v))
  | _ => Raise (TypeError ("Level not an integer or a valid string: " +:+ repr v))
  end.

(** The attributes of [self] that [run] reads or writes, and the process
    state around it: the threshold of the root logger,
    [config.settings["SCGI_URL"]], and [clock], what [time.time()]
    returns when [run] calls it in its [finally] clause. *)
Record world : Type := World {
  startup : spec_float;
  args : option pyval;
  options : option (gmap string pyval);
  return_code : Z;
  engine : bool;
  parser : Options.parser;
  root_level : Z;
  clock : spec_float;
  scgi_url : option pyval
}.

Definition with_args (v : option pyval) (w : world) : world :=
  let 'World s _ o r e p l c u := w in World s v o r e p l c u.
Definition with_options (v : option (gmap string pyval)) (w : world) : world :=
  let 'World s a _ r e p l c u := w in World s a v r e p l c u.
Definition with_return_code (v : Z) (w : world) : world :=
  let 'World s a o _ e p l c u := w in World s a o v e p l c u.
Definition with_engine (v : bool) (w : world) : world :=
  let 'World s a o r _ p l c u := w in World s a o r v p l c u.
Definition with_parser (v : Options.parser) (w : world) : world :=
  let 'World s a o r e _ l c u := w in World s a o r e v l c u.
Definition with_root_level (v : Z) (w : world) : world :=
  let 'World s a o r e p _ c u := w in World s a o r e p v c u.
Definition with_clock (v : spec_float) (w : world) : world :=
  let 'World s a o r e p l _ u := w in World s a o r e p l v u.
Definition with_scgi_url (v : option pyval) (w : world) : world :=
  let 'World s a o r e p l c _ := w in World s a o r e p l c v.

(** A computation: the events it produces, the world it leaves and its
    value or the exception it raises. *)
Definition M (A : Type) : Type := world -> list event * world * result A.

Definition ret {A} (a : A) : M A := fun w => ([], w, Ok a).

Definition bind {A B} (m : M A) (k : A -> M B) : M B :=
  fun w =>
    match m w with
    | (ev, w1, Ok a) => let '(ev2, w2, r) := k a w1 in ((ev ++ ev2)%list, w2, r)
    | (ev, w1, Raise e) => (ev, w1, Raise e)
    end.

Notation "'let!' x := c 'in' k" := (bind c (fun x => k))
  (at level 10, x name, c at level 100, k at level 200).
Notation "c >>> k" := (bind c (fun _ => k))
  (at level 90, right associativity).

Definition raise {A} (e : exn) : M A := fun w => ([], w, Raise e).
Definition emit (ev : event) : M unit := fun w => ([ev], w, Ok tt).
Definition gets {A} (f : world -> A) : M A := fun w => ([], w, Ok (f w)).
Definition modify (f : world -> world) : M unit := fun w => ([], f w, Ok tt).
Definition lift {A} (r : result A) : M A := fun w => ([], w, r).

(** [try: body except ...: handler], the handler re-raising what it does
    not match. *)
Definition try_except {A} (body : M A) (handler : exn -> M A) : M A :=
  fun w =>
    match body w with
    | (ev, w1, Raise e) =>
        let '(ev2, w2, r) := handler e w1 in ((ev ++ ev2)%list, w2, r)
    | done => done
    end.

(** [try: body finally: fin]: [fin] runs however [body] ends; what it
    raises replaces the outcome of [body]. *)
Definition try_finally {A} (body : M A) (fin : M unit) : M A :=
  fun w =>
    let '(ev, w1, r) := body w in
    match fin w1 with
    | (ev2, w2, Ok _) => ((ev ++ ev2)%list, w2, r)
    | (ev2, w2, Raise e) => ((ev ++ ev2)%list, w2, Raise e)
    end.

Definition sys_exit {A} (code : Z) : M A := raise (SystemExit code).
Definition print (f : stream) (text : string) : M unit := emit (EvPrint f text).
Definition LOG_log (level : Z) (msg : string) (a : list log_arg) : M unit :=
  emit (EvLog level msg a).
(** [time.time()] as [run] calls it, once, in its [finally] clause. *)
Definition time_time : M spec_float := gets clock.

(** [logging.getLogger().setLevel(level)]. *)
Definition setLevel (level : pyval) : M unit :=
  let! l := lift (check_level level) in
  modify (with_root_level l) >>> emit (EvSetLevel l).

(** [logging.getLogger().isEnabledFor(level)]. *)
Definition isEnabledFor (level : Z) : M bool :=
  gets (fun w => root_level w <=? level)%Z.

Definition getattr (ns : gmap string pyval) (name : string) : M pyval :=
  match ns !! name with
  | Some v => ret v
  | None => raise (AttributeError name)
  end.

(** The classes of the module. *)
Inductive script_class : Type := ScriptBase | ScriptBaseWithConfig.

(** A registration made by the [add_options] of a derived class. *)
Inductive declaration : Type :=
| BoolOption (a : list string) (kw : gmap string pyval)
| ValueOption (a : list string) (kw : gmap string pyval).

(** What the [mainloop] of a derived class does, as far as [run] can
    tell. *)
Record subcommand : Type := Subcommand {
  effects : list string;
  sets_return_code : option Z;
  raises : option exn
}.

(** A command line tool built on the script base. [declares] is what its
    [add_options] adds after calling the inherited one; [mainloop_body]
    is [None] when [mainloop] is not overridden. *)
Record tool : Type := Tool {
  base : script_class;
  intermixed_args : bool;
  declares : list declaration;
  mainloop_body : option subcommand
}.

(** What argparse does with [sys.argv]: the text it writes (the usage
    and the error on stderr, the help or the version on stdout) and the
    namespace it returns or the exception it raises. *)
Record parsed : Type := Parsed {
  printed : list (stream * string);
  outcome : result (gmap string pyval)
}.

(** The collaborators outside the module: argparse applied to
    [sys.argv], [config.load_custom_py()] and the constructor
    [rtorrent.RtorrentEngine()]. *)
Record environment : Type := Environment {
  parse_args : Options.parser -> parsed;
  parse_intermixed_args : Options.parser -> parsed;
  load_custom_py : option exn;
  RtorrentEngine : option exn
}.

(** What argparse wrote, as events. *)
Definition shown (r : parsed) : list event :=
  map (fun o : stream * string => EvPrint o.1 o.2) (printed r).

Definition argparse (r : parsed) : M (gmap string pyval) :=
  fun w => (shown r, w, outcome r).

Definition may_raise (o : option exn) : M unit :=
  match o with
  | Some e => raise e
  | None => ret tt
  end.

Definition parser_add_argument (fl : list string) (kw : gmap string pyval) : M unit :=
  modify (fun w => with_parser (add_argument (parser w) fl kw) w).

Definition declare (d : declaration) : M unit :=
  let! p := gets parser in
  let! p := lift (match d with
                  | BoolOption a kw => add_bool_option p a kw
                  | ValueOption a kw => add_value_option p a kw
                  end) in
  modify (with_parser p).

Fixpoint declare_all (ds : list declaration) : M unit :=
  match ds with
  | [] => ret tt
  | d :: rest => declare d >>> declare_all rest
  end.

(** [__init__]: the parser starts with [--version] and the positional
    [args]. *)
Definition init (version_info : string) (now : spec_float) (level : Z) : world :=
  World now None None 0 false
    (add_argument
       (add_argument []
          ["--version"]
          (<["action" := PStr "version"]>
             {["version" := PStr ("%(prog)s " +:+ version_info)]}))
       ["args"] {["nargs" := PStr "*"]})
    level now None.

Definition store_const (help : string) (level : Z) : gmap string pyval :=
  <["help" := PStr help]>
    (<["dest" := PStr "log_level"]>
       (<["action" := PStr "store_const"]> {["const" := PInt level]})).

(** The rendering of [sorted(vars(self.options).items())] in the debug
    message of [get_options]. *)
Definition options_text (ns : gmap string pyval) : string :=
  String.concat ", "
    (map (fun i : string * pyval => i.1 +:+ "=" +:+ repr i.2)
       (merge_sort (fun x y : string * pyval => String.leb x.1 y.1)
          (map_to_list ns))).

Section Run.

(** [pyrosimple.error.EX_SOFTWARE], [EX_TEMPFAIL] and [EX_IOERR], the
    platform's [errno.EPIPE] and [traceback.format_exc()] for the
    exception being handled. *)
Variables EX_SOFTWARE EX_TEMPFAIL EX_IOERR EPIPE : Z.
Variable format_exc : exn -> string.

Variable t : tool.
Variable env : environment.

(** [add_options]: the inherited registrations, then the tool's own. *)
Definition add_options : M unit :=
  match base t with
  | ScriptBase => ret tt
  | ScriptBaseWithConfig =>
      parser_add_argument ["-U"; "--url"] {["help" := PStr "URL to rtorrent instance"]}
  end >>> declare_all (declares t).

(** [ScriptBase.get_options] up to and including the call of the
    parser: the value is the namespace the parser returns. *)
Definition parse_options : M (gmap string pyval) :=
  parser_add_argument ["-q"; "--quiet"; "--cron"]
    (store_const "silence warnings" CRITICAL) >>>
  parser_add_argument ["--debug"]
    (store_const "show detailed messages" DEBUG) >>>
  parser_add_argument ["-v"; "--verbose"]
    (store_const "show additional information" INFO) >>>
  add_options >>>
  let! p := gets parser in
  argparse (if intermixed_args t then parse_intermixed_args env p
            else parse_args env p).

Definition ScriptBase_get_options : M unit :=
  let! ns := parse_options in
  modify (with_options (Some ns)) >>>
  let! a := getattr ns "args" in
  modify (with_args (Some a)) >>>
  let! level := getattr ns "log_level" in
  (if truthy level then setLevel level else ret tt) >>>
  LOG_log DEBUG "Options: %s" [LStr (options_text ns)].

Definition get_options : M unit :=
  match base t with
  | ScriptBase => ScriptBase_get_options
  | ScriptBaseWithConfig =>
      ScriptBase_get_options >>>
      let! o := gets options in
      let! url := getattr (default ∅ o) "url" in
      (if truthy url then modify (with_scgi_url (Some url)) else ret tt) >>>
      may_raise (load_custom_py env) >>>
      may_raise (RtorrentEngine env) >>>
      modify (with_engine true)
  end.

Definition mainloop : M unit :=
  match mainloop_body t with
  | None => raise (OtherError "NotImplementedError" EmptyString)
  | Some sc =>
      (fun w => (map EvTool (effects sc), w, Ok tt)) >>>
      match sets_return_code sc with
      | Some c => modify (with_return_code c)
      | None => ret tt
      end >>>
      may_raise (raises sc)
  end.

Definition newline : string := String "010" EmptyString.

(** [fatal(msg, exc)]. *)
Definition fatal (msg : string) (exc : option exn) : M unit :=
  match exc with
  | Some e =>
      LOG_log CRITICAL "%s (%s)" [LStr msg; LExn e] >>>
      let! dbg := isEnabledFor DEBUG in
      if dbg then ret tt else sys_exit EX_SOFTWARE
  | None =>
      LOG_log CRITICAL msg [] >>> sys_exit EX_SOFTWARE
  end.

(** The [except] clauses of [run], in their order. *)
Definition on_failure (e : exn) : M unit :=
  match e with
  | LoggableError _ =>
      print Stdout (format_exc e) >>> sys_exit EX_SOFTWARE
  | KeyboardInterrupt =>
      print Stdout EmptyString >>>
      LOG_log CRITICAL ("Aborted by CTRL-C!" +:+ newline) [] >>>
      sys_exit EX_TEMPFAIL
  | OSError errno text =>
      if decide (errno = Some EPIPE) then
        print Stderr (newline +:+ text +:+ ", exiting!" +:+ newline) >>>
        sys_exit EX_IOERR
      else raise e
  | _ => raise e
  end.

(** The [finally] clause of [run]. *)
Definition shut_down (log_total : bool) : M unit :=
  let! o := gets options in
  (if log_total && bool_decide (is_Some o) then
     let! now := time_time in
     let! started := gets startup in
     LOG_log STD_LOG_LEVEL "Total time: %.3f seconds."
       [LFloat (SFsub PyFloat.prec PyFloat.emax now started)]
   else ret tt) >>>
  emit EvShutdown.

(** The two statements of the inner [try]. *)
Definition attempt : M unit := get_options >>> mainloop.

Definition run : M unit :=
  let log_total := true in
  try_finally (try_except attempt on_failure) (shut_down log_total) >>>
  let! rc := gets return_code in
  if negb (rc =? 0)%Z then sys_exit rc else ret tt.

(** *** Parts of the definitions above, named for the proofs *)

(** What [get_options] does once the parser has returned [ns]. *)
Definition after_parse (ns : gmap string pyval) : M unit :=
  let! a := getattr ns "args" in
  modify (with_args (Some a)) >>>
  let! level := getattr ns "log_level" in
  (if truthy level then setLevel level else ret tt) >>>
  LOG_log DEBUG "Options: %s" [LStr (options_text ns)].

(** What [ScriptBaseWithConfig.get_options] adds to the inherited one. *)
Definition configure : M unit :=
  let! o := gets options in
  let! url := getattr (default ∅ o) "url" in
  (if truthy url then modify (with_scgi_url (Some url)) else ret tt) >>>
  may_raise (load_custom_py env) >>>
  may_raise (RtorrentEngine env) >>>
  modify (with_engine true).

(** [self.options] once [get_options] is over. *)
Definition options_after_parsing (w : world) : option (gmap string pyval) :=
  match (parse_options w).2 with
  | Ok ns => Some ns
  | Raise _ => options w
  end.

(** The inner [try] statement with its [except] clauses. *)
Definition guarded : M unit := try_except attempt on_failure.

(** The events of the [finally] clause in a given world. *)
Definition closing (w : world) : list event :=
  (if bool_decide (is_Some (options w)) then
     [EvLog STD_LOG_LEVEL "Total time: %.3f seconds."
        [LFloat (SFsub PyFloat.prec PyFloat.emax (clock w) (startup w))]]
   else []) ++ [EvShutdown].

(** Does the parser return a namespace in this run? *)
Definition parsing_completes (w : world) : bool :=
  match parse_options w with
  | (_, _, Ok _) => true
  | (_, _, Raise _) => false
  end.

(** The table of the error classifier, as the specification words it:
    what leaves [run] for a failure of the given kind. *)
Definition failure_outcome (e : exn) : exn :=
  match e with
  | LoggableError _ => SystemExit EX_SOFTWARE
  | KeyboardInterrupt => SystemExit EX_TEMPFAIL
  | OSError errno _ =>
      if decide (errno = Some EPIPE) then SystemExit EX_IOERR else e
  | _ => e
  end.

End Run.

(** The status a POSIX process ends with for [sys.exit(c)]: the low
    eight bits of [c]; an integer that does not fit a C [long] exits
    like [-1]. *)
Definition wait_status (c : Z) : Z :=
  if (- 2 ^ 63 <=? c)%Z && (c <? 2 ^ 63)%Z then c mod 256 else 255.

(** The status the process ends with when [run] is its last call: that
    of the [sys.exit] that leaves it, [0] after a normal return, [1]
    after any other uncaught exception. *)
Definition exit_status (r : result unit) : Z :=
  match r with
  | Ok _ => 0
  | Raise (SystemExit c) => wait_status c
  | Raise _ => 1
  end.

Definition is_total_time (ev : event) : bool :=
  match ev with
  | EvLog level msg _ =>
      (level =? STD_LOG_LEVEL)%Z && String.eqb msg "Total time: %.3f seconds."
  | _ => false
  end.

Definition is_shutdown (ev : event) : bool :=
  match ev with
  | EvShutdown => true
  | _ => false
  end.

Definition count (f : event -> bool) (evs : list event) : nat :=
  length (List.filter f evs).

(** Events other than the total-time line and the shutdown. *)
Definition plain (ev : event) : Prop :=
  is_total_time ev = false /\ is_shutdown ev = false.

(** A computation that produces plain events only. *)
Definition quiet {A} (m : M A) : Prop :=
  forall w, Forall plain (m w).1.1.

(** A computation that leaves the component [f] of the world as it is. *)
Definition keeps {A B} (f : world -> B) (m : M A) : Prop :=
  forall w, f (m w).1.2 = f w.

(** The exceptions none of the [except] clauses of [run] matches. *)
Definition unclassified (e : exn) : Prop :=
  match e with
  | LoggableError _ | KeyboardInterrupt | OSError _ _ => False
  | _ => True
  end.

(** [get_options] before the parser is called: the registrations. *)
Definition register_options (t : tool) : M unit :=
  parser_add_argument ["-q"; "--quiet"; "--cron"]
    (store_const "silence warnings" CRITICAL) >>>
  parser_add_argument ["--debug"]
    (store_const "show detailed messages" DEBUG) >>>
  parser_add_argument ["-v"; "--verbose"]
    (store_const "show additional information" INFO) >>>
  add_options t.

(** The errors the registration helpers raise themselves. *)
Definition registration_error (e : exn) : Prop :=
  match e with
  | IndexError _ | KeyError _ | TypeError _ => True
  | _ => False
  end.

(** What a declaration of the tool leaves in the parser. *)
Definition declared (d : declaration) (a : argument) : Prop :=
  match d with
  | BoolOption fl _ => flags a = fl
  | ValueOption fl _ => flags a = removelast fl
  end.

(** The options every tool has, as [get_options] registers them. *)
Definition logging_flags : list argument :=
  [ Argument ["-q"; "--quiet"; "--cron"] (store_const "silence warnings" CRITICAL);
    Argument ["--debug"] (store_const "show detailed messages" DEBUG);
    Argument ["-v"; "--verbose"] (store_const "show additional information" INFO) ].

Definition inherited_options (c : script_class) : list argument :=
  match c with
  | ScriptBase => []
  | ScriptBaseWithConfig =>
      [Argument ["-U"; "--url"] {["help" := PStr "URL to rtorrent instance"]}]
  end.

End Lifecycle.

(** ** UsageReporter: [ScriptBase.rpc_stats] *)

Module Usage.
Import Py Options.

(** A sample of a prometheus metric: the suffix of its name and its
    value. *)
Record Sample : Type := { name : string; value : spec_float }.

(** A prometheus [Summary] without labels. *)
Record Summary : Type := {
  observations : spec_float;
  total : spec_float;
  created : spec_float
}.

Definition child_samples (s : Summary) : list Sample :=
  [ {| name := "_count"; value := observations s |};
    {| name := "_sum"; value := total s |};
    {| name := "_created"; value := created s |} ].

(** The metrics kept by [pyrosimple.io.scgi]; a counter is given by what
    its [_value.get()] returns. *)
Record scgi : Type := {
  request_counter : spec_float;
  request_size_counter : spec_float;
  response_time_summary : Summary;
  response_size_counter : spec_float
}.

Section Stats.

(** [pyrosimple.util.fmt.human_size]. *)
Variable human_size : spec_float -> string.

Definition rpc_stats (io : scgi) : result string :=
  let? req_num := PyFloat.int (request_counter io) in
  let req_sz := human_size (request_size_counter io) in
  let? sample :=
    match child_samples (response_time_summary io) !! 1%nat with
    | Some s => Ok s
    | None => Raise (IndexError "list index out of range")
    end in
  let req_time := PyFloat.round (value sample) 3 in
  let resp_sz := human_size (response_size_counter io) in
  Ok (pretty req_num +:+ " requests (" +:+ req_sz +:+ ") in "
        +:+ PyFloat.repr req_time +:+ "s (repsonse " +:+ resp_sz +:+ ")").

End Stats.

End Usage.

(** ** Sample data used in the examples below *)

Module Samples.
Import Py Options Connections Lifecycle Usage.

Definition seedbox : gmap string alias_value :=
  {["seedbox" := AList ["10.0.0.1:80"; "10.0.0.2:80"]]}.

Definition home : gmap string alias_value :=
  {["home" := AStr "192.168.1.5:80"]}.

Definition chained : gmap string alias_value :=
  <["a" := AStr "b"]> {["b" := AStr "c"]}.

Definition output_format : list string := ["-o"; "--output-format"; "FORMAT"].

Definition with_choices : gmap string pyval :=
  <["help" := PStr "output format"]>
    {["choices" := PList [PStr "json"; PStr "text"]]}.

Definition with_choices_and_type : gmap string pyval :=
  <["type" := PType "str"]> with_choices.

Definition fresh : scgi :=
  {| request_counter := PyFloat.zero;
     request_size_counter := PyFloat.zero;
     response_time_summary :=
       {| observations := PyFloat.zero;
          total := PyFloat.zero;
          created := S754_finite false 5 28 |};
     response_size_counter := PyFloat.zero |}.

(** A namespace as the parser returns it when no option is given. *)
Definition no_options : gmap string pyval :=
  <["args" := PList []]> (<["log_level" := PNone]> {["url" := PNone]}).

Definition parses : environment :=
  Environment (fun _ => Parsed [] (Ok no_options))
    (fun _ => Parsed [] (Ok no_options)) None None.

(** The parser rejects the command line: it writes the usage and the
    error on stderr and exits with status 2. *)
Definition complaint : parsed :=
  Parsed [(Stderr, "usage: tool [options] <log-base>...");
          (Stderr, "tool: error: unrecognized arguments: --bogus")]
    (Raise (SystemExit 2)).

Definition usage_error : environment :=
  Environment (fun _ => complaint) (fun _ => complaint) None None.

(** A tool whose [mainloop] sets the return code 5 and ends as given. *)
Definition job (ending : option exn) : tool :=
  Tool ScriptBaseWithConfig false
    [ValueOption output_format with_choices_and_type]
    (Some (Subcommand ["work"] (Some 5%Z) ending)).

(** An object constructed at time 1; the clock will show 3 when [run]
    reads it. *)
(** A tool whose [mainloop] sets the given return code and returns. *)
Definition returning (code : Z) : tool :=
  Tool ScriptBase false [] (Some (Subcommand [] (Some code) None)).

Definition started : world :=
  with_clock (S754_finite false 3 0)
    (init "1.0 on Python 3.9" (S754_finite false 1 0) WARNING).

Definition traceback (e : exn) : string := "Traceback (most recent call last):".

Definition dry_run : list string := ["-n"; "--dry-run"].

Definition with_default : gmap string pyval :=
  <["default" := PStr "json"]> (<["type" := PType "str"]>
    {["help" := PStr "output format"]}).

(** A namespace as the parser returns it for [--debug -U host:5000]. *)
Definition debug_options : gmap string pyval :=
  <["args" := PList []]>
    (<["log_level" := PInt DEBUG]> {["url" := PStr "host:5000"]}).

Definition parses_debug : environment :=
  Environment (fun _ => Parsed [] (Ok debug_options))
    (fun _ => Parsed [] (Ok debug_options)) None None.

(** A tool that does not override [mainloop]. *)
Definition bare : tool := Tool ScriptBase false [] None.

(** A tool that declares [choices] without a [type]. *)
Definition misdeclared : tool :=
  Tool ScriptBase false [ValueOption output_format with_choices]
    (Some (Subcommand ["work"] None None)).

End Samples.

(** * Properties *)

(** ** The models of the Python primitives on known values *)

Module PrimitiveFacts.
Import Py Options.

Example repr_list_of_strings :
  repr (PList [PStr "a'b"; PInt (-3); PNone; PBool true])
  = String "[" (String quote2 ("a'b" +:+ String quote2 ", -3, None, True]")).
Proof. vm_compute. reflexivity. Qed.

Example long_option_dest_output_format :
  long_option_dest ["-o"; "--output-format"; "FORMAT"] = Ok "output_format".
Proof. reflexivity. Qed.

Example long_option_dest_no_long_option :
  long_option_dest ["-o"; "FORMAT"] = Raise (IndexError "list index out of range").
Proof. reflexivity. Qed.

(** The double [0.1] prints as such. *)
Example float_repr_tenth :
  PyFloat.repr (S754_finite false 7205759403792794 (-56)) = "0.1".
Proof. vm_compute. reflexivity. Qed.

(** [1e16] and [0.00001] print with an exponent, [3.75] does not. *)
Example float_repr_exponent :
  PyFloat.repr (S754_finite false 5000000000000000 1) = "1e+16"
  /\ PyFloat.repr (S754_finite false 5902958103587057 (-69)) = "1e-05"
  /\ PyFloat.repr (S754_finite false 8444249301319680 (-51)) = "3.75".
Proof. vm_compute. repeat split. Qed.

(** [round(1234.56789, 3)] is the double [1234.568], and
    [round(0.0005, 3)] the double [0.001]. *)
Example float_round_three_digits :
  PyFloat.round (S754_finite false 5429687001335527 (-42)) 3
  = S754_finite false 5429687485120643 (-42)
  /\ PyFloat.round (S754_finite false 4611686018427388 (-63)) 3
     = S754_finite false 4611686018427388 (-62).
Proof. vm_compute. split; reflexivity. Qed.

Example float_int_truncates :
  PyFloat.int (S754_finite true 8444249301319680 (-51)) = Ok (-3)%Z.
Proof. vm_compute. reflexivity. Qed.

End PrimitiveFacts.

(** ** Connection aliases *)

Module ConnectionFacts.
Import Py Connections Samples.

Lemma lookup_absent (T : gmap string alias_value) (t : string) :
  T !! t = None -> lookup_connection_alias T t = t.
Proof. intros H. unfold lookup_connection_alias. now rewrite H. Qed.

Lemma lookup_single (T : gmap string alias_value) (t s : string) :
  T !! t = Some (AStr s) -> lookup_connection_alias T t = s.
Proof. intros H. unfold lookup_connection_alias. now rewrite H. Qed.

(** C1, as the claim states it, fails: on a key whose value is a list
    [lookup_connection_alias] returns the text of the list, not the
    token. *)
Lemma lookup_connection_alias_list_not_token :
  seedbox !! "seedbox" = Some (AList ["10.0.0.1:80"; "10.0.0.2:80"])
  /\ lookup_connection_alias seedbox "seedbox" = "['10.0.0.1:80', '10.0.0.2:80']"
  /\ lookup_connection_alias seedbox "seedbox" <> "seedbox".
Proof. vm_compute. repeat split; discriminate. Qed.

(** C1 (amended): [lookup_connection_alias] is total (it never raises);
    it returns the stored value when the token is a key whose value is a
    single string, the token itself when the token is not a key, and the
    Python text [str(value)] of the stored list when the value is a
    list. *)
Theorem lookup_connection_alias_cases (T : gmap string alias_value) (t : string) :
  match T !! t with
  | Some (AStr s) => lookup_connection_alias T t = s
  | Some (AList l) =>
      lookup_connection_alias T t = "[" +:+ String.concat ", " (map repr_str l) +:+ "]"
  | None => lookup_connection_alias T t = t
  end.
Proof.
  destruct (T !! t) as [[s|l]|] eqn:E.
  - now apply lookup_single.
  - unfold lookup_connection_alias. now rewrite E.
  - now apply lookup_absent.
Qed.

(** C2, as the claim states it, fails: when the stored string is itself
    an alias, the sequence path resolves it once more. *)
Lemma multi_connection_lookup_resolves_again :
  chained !! "a" = Some (AStr "b")
  /\ lookup_connection_alias chained "a" = "b"
  /\ multi_connection_lookup chained "a" = ["c"]
  /\ multi_connection_lookup chained "a" <> ["b"].
Proof. vm_compute. repeat split; discriminate. Qed.

(** C2 (amended): when [T[t]] is a single string [s],
    [lookup_connection_alias t] returns [s] and [multi_connection_lookup t]
    yields exactly one element, [lookup_connection_alias s]; that element
    is [s] itself whenever [s] is not a key of [T]. *)
Theorem multi_connection_lookup_single (T : gmap string alias_value) (t s : string) :
  T !! t = Some (AStr s) ->
  lookup_connection_alias T t = s
  /\ multi_connection_lookup T t = [lookup_connection_alias T s]
  /\ (T !! s = None -> multi_connection_lookup T t = [s]).
Proof.
  intros H. split; [now apply lookup_single|].
  assert (E : multi_connection_lookup T t = [lookup_connection_alias T s]).
  { unfold multi_connection_lookup. now rewrite H. }
  split; [exact E|].
  intros Hs. rewrite E. now rewrite (lookup_absent _ _ Hs).
Qed.

Lemma multi_connection_lookup_single_witness :
  lookup_connection_alias home "home" = "192.168.1.5:80"
  /\ multi_connection_lookup home "home"
     = [lookup_connection_alias home "192.168.1.5:80"]
  /\ (home !! "192.168.1.5:80" = None ->
      multi_connection_lookup home "home" = ["192.168.1.5:80"]).
Proof.
  apply (multi_connection_lookup_single home "home" "192.168.1.5:80").
  vm_compute. reflexivity.
Defined.

(** C5: when [T[t]] is a list of length [n], [multi_connection_lookup t]
    yields exactly [n] elements, the [i]-th being
    [lookup_connection_alias] of the [i]-th entry; an empty list yields
    nothing. *)
Theorem multi_connection_lookup_list (T : gmap string alias_value) (t : string)
    (l : list string) :
  T !! t = Some (AList l) ->
  multi_connection_lookup T t = map (lookup_connection_alias T) l
  /\ length (multi_connection_lookup T t) = length l
  /\ (forall (i : nat) (v : string),
        l !! i = Some v ->
        multi_connection_lookup T t !! i = Some (lookup_connection_alias T v))
  /\ (l = [] -> multi_connection_lookup T t = []).
Proof.
  intros H.
  assert (E : multi_connection_lookup T t = map (lookup_connection_alias T) l).
  { unfold multi_connection_lookup. now rewrite H. }
  rewrite E. repeat split.
  - apply length_map.
  - intros i v Hv. change (map (lookup_connection_alias T) l)
      with (lookup_connection_alias T <$> l).
    rewrite list_lookup_fmap, Hv. reflexivity.
  - intros ->. reflexivity.
Qed.

Lemma multi_connection_lookup_list_witness :
  multi_connection_lookup seedbox "seedbox" = ["10.0.0.1:80"; "10.0.0.2:80"].
Proof.
  destruct (multi_connection_lookup_list seedbox "seedbox"
              ["10.0.0.1:80"; "10.0.0.2:80"]) as [E _].
  - vm_compute. reflexivity.
  - rewrite E. vm_compute. reflexivity.
Defined.

(** C6: for a token that is not a key, [multi_connection_lookup] yields
    exactly one element, the token. *)
Theorem multi_connection_lookup_absent (T : gmap string alias_value) (t : string) :
  T !! t = None -> multi_connection_lookup T t = [t].
Proof.
  intros H. unfold multi_connection_lookup. rewrite H. simpl.
  now rewrite (lookup_absent _ _ H).
Qed.

Lemma multi_connection_lookup_absent_witness :
  multi_connection_lookup home "office" = ["office"].
Proof.
  apply (multi_connection_lookup_absent home "office").
  vm_compute. reflexivity.
Defined.

End ConnectionFacts.

(** ** Option registration *)

Module OptionFacts.
Import Py Options Samples.

Lemma rbind_ok {A B} (r : result A) (k : A -> result B) (b : B) :
  rbind r k = Ok b -> exists a, r = Ok a /\ k a = Ok b.
Proof. destruct r as [a|e]; simpl; [eauto | discriminate]. Qed.

(** [describe] writes the keys [metavar], [dest] and [help] only. *)
Lemma describe_other_keys (args : list string) (kw kw1 : gmap string pyval)
    (key : string) :
  describe args kw = Ok kw1 ->
  key <> "metavar" -> key <> "dest" -> key <> "help" ->
  kw1 !! key = kw !! key.
Proof.
  unfold describe. intros H Hm Hd Hh.
  apply rbind_ok in H as (m & _ & H).
  apply rbind_ok in H as (kw2 & H2 & H).
  assert (E2 : kw2 !! key = kw !! key).
  { destruct (<["metavar":=PStr m]> kw !! "dest") eqn:E.
    - injection H2 as <-. now rewrite lookup_insert_ne.
    - apply rbind_ok in H2 as (d & _ & H2). injection H2 as <-.
      now rewrite !lookup_insert_ne. }
  rewrite <- E2.
  destruct (kw2 !! "default") as [d|]; [|now injection H as <-].
  destruct (truthy d); [|now injection H as <-].
  apply rbind_ok in H as (h & _ & H).
  apply rbind_ok in H as (h' & _ & H).
  injection H as <-. now rewrite lookup_insert_ne.
Qed.

Lemma long_option_dest_ok (args : list string) (d : string) :
  long_option_dest args = Ok d ->
  exists o, In o args /\ String.prefix "--" o = true
            /\ d = dash_to_underscore (drop_double_dash o).
Proof.
  unfold long_option_dest.
  destruct (List.filter (String.prefix "--") args) as [|o l] eqn:E; [discriminate|].
  intros [= <-]. exists o.
  assert (I : In o (List.filter (String.prefix "--") args)) by (rewrite E; now left).
  apply List.filter_In in I as [I P]. auto.
Qed.

Lemma long_option_dest_raises (args : list string) :
  (forall o, In o args -> String.prefix "--" o = false) ->
  long_option_dest args = Raise (IndexError "list index out of range").
Proof.
  intros H. unfold long_option_dest.
  destruct (List.filter (String.prefix "--") args) as [|o l] eqn:E; [reflexivity|].
  assert (I : In o (List.filter (String.prefix "--") args)) by (rewrite E; now left).
  apply List.filter_In in I as [I P]. rewrite (H o I) in P. discriminate.
Qed.

Lemma long_option_dest_some (args : list string) (o : string) :
  In o args -> String.prefix "--" o = true ->
  exists d, long_option_dest args = Ok d.
Proof.
  intros I P. unfold long_option_dest.
  destruct (List.filter (String.prefix "--") args) as [|o' l] eqn:E; [|eauto].
  assert (J : In o (List.filter (String.prefix "--") args))
    by (apply List.filter_In; auto).
  rewrite E in J. destruct J.
Qed.

(** The default and the help text are read as the caller passed them:
    the metavar and the destination written before do not touch them. *)
Lemma describe_eq (args : list string) (kw : gmap string pyval) :
  describe args kw
  = match last args with
    | None => Raise (IndexError "tuple index out of range")
    | Some m =>
        rbind (match kw !! "dest" with
               | None => rbind (long_option_dest args) (fun dest =>
                           Ok (<["dest" := PStr dest]> (<["metavar" := PStr m]> kw)))
               | Some _ => Ok (<["metavar" := PStr m]> kw)
               end)
          (fun kw2 =>
             match kw !! "default" with
             | Some d =>
                 if truthy d then
                   match kw !! "help" with
                   | None => Raise (KeyError "help")
                   | Some h =>
                       rbind (iadd_str h (" [" +:+ str d +:+ "]"))
                         (fun h' => Ok (<["help" := h']> kw2))
                   end
                 else Ok kw2
             | None => Ok kw2
             end)
    end.
Proof.
  unfold describe. destruct (last args) as [m|]; [|reflexivity]. simpl.
  rewrite lookup_insert_ne by discriminate.
  destruct (kw !! "dest") as [d0|]; simpl.
  - rewrite lookup_insert_ne by discriminate.
    destruct (kw !! "default") as [d|]; [|reflexivity].
    destruct (truthy d); [|reflexivity].
    unfold getitem. rewrite lookup_insert_ne by discriminate.
    now destruct (kw !! "help").
  - destruct (long_option_dest args) as [dest|e]; [|reflexivity]. simpl.
    rewrite !lookup_insert_ne by discriminate.
    destruct (kw !! "default") as [d|]; [|reflexivity].
    destruct (truthy d); [|reflexivity].
    unfold getitem. rewrite !lookup_insert_ne by discriminate.
    now destruct (kw !! "help").
Qed.

(** When the first statements of [add_value_option] go through. *)
Lemma describe_succeeds_iff (args : list string) (kw : gmap string pyval) :
  (exists kw1, describe args kw = Ok kw1)
  <-> args <> []
      /\ (is_Some (kw !! "dest")
          \/ exists o, In o args /\ String.prefix "--" o = true)
      /\ (forall d, kw !! "default" = Some d -> truthy d = true ->
            (exists s, kw !! "help" = Some (PStr s))
            \/ (exists l, kw !! "help" = Some (PList l))).
Proof.
  rewrite describe_eq. split.
  - intros [kw1 H1].
    destruct (last args) as [m|] eqn:L; [|discriminate].
    apply rbind_ok in H1 as (kw2 & E2 & H1).
    split; [intros ->; discriminate|]. split.
    + destruct (kw !! "dest") as [d|]; [eauto|]. right.
      apply rbind_ok in E2 as (d & E & _).
      apply long_option_dest_ok in E as (o & I & P & _). eauto.
    + intros d Hd Ht. rewrite Hd, Ht in H1.
      destruct (kw !! "help") as [h|]; [|discriminate].
      apply rbind_ok in H1 as (h' & E & _).
      destruct h; try discriminate; eauto.
  - intros (Ha & Hd & Hh).
    destruct (last args) as [m|] eqn:L;
      [|apply last_None in L; contradiction].
    assert (exists kw2,
              match kw !! "dest" with
              | None => rbind (long_option_dest args) (fun dest =>
                          Ok (<["dest" := PStr dest]> (<["metavar" := PStr m]> kw)))
              | Some _ => Ok (<["metavar" := PStr m]> kw)
              end = Ok kw2) as [kw2 E2].
    { destruct (kw !! "dest") as [d|]; [eauto|].
      destruct Hd as [[? ?]|(o & I & P)]; [discriminate|].
      destruct (long_option_dest_some args o I P) as [d ->]. simpl. eauto. }
    rewrite E2. simpl.
    destruct (kw !! "default") as [d|]; [|eauto].
    destruct (truthy d) eqn:Ht; [|eauto].
    destruct (Hh d eq_refl Ht) as [[s ->]|[l ->]]; simpl; eauto.
Qed.

(** The first statements never raise a [KeyError] for [type]. *)
Lemma describe_error (args : list string) (kw : gmap string pyval) (e : exn) :
  describe args kw = Raise e -> e <> KeyError "type".
Proof.
  rewrite describe_eq.
  destruct (last args) as [m|]; [|intros [= <-]; discriminate].
  destruct (kw !! "dest") as [d0|]; simpl.
  - destruct (kw !! "default") as [d|]; [|discriminate].
    destruct (truthy d); [|discriminate].
    destruct (kw !! "help") as [h|]; [|intros [= <-]; discriminate].
    destruct h; simpl; try discriminate; intros [= <-]; discriminate.
  - unfold long_option_dest.
    destruct (List.filter (String.prefix "--") args); simpl;
      [intros [= <-]; discriminate|].
    destruct (kw !! "default") as [d|]; [|discriminate].
    destruct (truthy d); [|discriminate].
    destruct (kw !! "help") as [h|]; [|intros [= <-]; discriminate].
    destruct h; simpl; try discriminate; intros [= <-]; discriminate.
Qed.

(** With a metavar, an explicit destination and no default, the first
    statements only add the metavar. *)
Lemma describe_plain (args : list string) (kw : gmap string pyval) (m : string) :
  last args = Some m ->
  is_Some (kw !! "dest") ->
  kw !! "default" = None ->
  describe args kw = Ok (<["metavar" := PStr m]> kw).
Proof.
  intros Hm [d Hd] Hdef. unfold describe. rewrite Hm. simpl.
  rewrite lookup_insert_ne by discriminate. rewrite Hd. simpl.
  rewrite lookup_insert_ne by discriminate. now rewrite Hdef.
Qed.

(** C9: whenever [add_value_option] is called with a [choices] keyword
    and registers the option, a [type] keyword had been passed along and
    is gone from what is registered: the registered keywords have no
    [type] and keep [choices] as given. *)
Theorem add_value_option_choices_drop_type (p p' : parser) (args : list string)
    (kw : gmap string pyval) :
  is_Some (kw !! "choices") ->
  add_value_option p args kw = Ok p' ->
  exists kw' : gmap string pyval,
    p' = (p ++ [Argument (removelast args) kw'])%list
    /\ is_Some (kw !! "type")
    /\ kw' !! "type" = None
    /\ kw' !! "choices" = kw !! "choices".
Proof.
  intros [c Hc] H. unfold add_value_option in H.
  apply rbind_ok in H as (kw1 & H1 & H).
  apply rbind_ok in H as (kw2 & H2 & H).
  injection H as <-.
  assert (C1 : kw1 !! "choices" = kw !! "choices")
    by (apply (describe_other_keys args); [exact H1 | discriminate..]).
  assert (T1 : kw1 !! "type" = kw !! "type")
    by (apply (describe_other_keys args); [exact H1 | discriminate..]).
  unfold drop_type_for_choices in H2. rewrite C1, Hc in H2.
  destruct (kw1 !! "type") as [ty|] eqn:Ty; [|discriminate].
  injection H2 as <-.
  exists (delete "type" kw1). repeat split.
  - rewrite <- T1. eauto.
  - apply lookup_delete_eq.
  - rewrite lookup_delete_ne by discriminate. exact C1.
Qed.

Lemma add_value_option_choices_drop_type_witness :
  exists p' : parser,
    add_value_option [] output_format with_choices_and_type = Ok p'
    /\ exists kw' : gmap string pyval,
         p' = ([] ++ [Argument (removelast output_format) kw'])%list
         /\ is_Some (with_choices_and_type !! "type")
         /\ kw' !! "type" = None
         /\ kw' !! "choices" = with_choices_and_type !! "choices".
Proof.
  eexists. split.
  - vm_compute. reflexivity.
  - apply (add_value_option_choices_drop_type [] _ output_format
             with_choices_and_type).
    + vm_compute. eauto.
    + vm_compute. reflexivity.
Defined.

(** C10, as the claim states it, fails: with [choices], no [type] and
    no way to derive the destination, the call raises the [IndexError]
    of the destination before it gets to the deletion of [type]. *)
Lemma add_value_option_choices_index_error :
  is_Some (with_choices !! "choices")
  /\ with_choices !! "type" = None
  /\ add_value_option [] ["-o"; "FORMAT"] with_choices
     = Raise (IndexError "list index out of range")
  /\ add_value_option [] ["-o"; "FORMAT"] with_choices <> Raise (KeyError "type").
Proof. vm_compute. repeat split; eauto; discriminate. Qed.

(** C10 (amended): a call of [add_value_option] with a [choices] keyword
    and no [type] keyword never registers the option: it always raises.
    The error is the [KeyError] of the deletion of [type] exactly when
    the statements before it go through, that is when there is a
    positional argument, a destination is given or some positional
    argument starts with two dashes, and a truthy default comes with a
    help that is a string or a list; otherwise it is the error of the
    earlier statement. *)
Theorem add_value_option_choices_needs_type (p : parser) (args : list string)
    (kw : gmap string pyval) :
  is_Some (kw !! "choices") ->
  kw !! "type" = None ->
  (exists e, add_value_option p args kw = Raise e)
  /\ (add_value_option p args kw = Raise (KeyError "type")
      <-> args <> []
          /\ (is_Some (kw !! "dest")
              \/ exists o, In o args /\ String.prefix "--" o = true)
          /\ (forall d, kw !! "default" = Some d -> truthy d = true ->
                (exists s, kw !! "help" = Some (PStr s))
                \/ (exists l, kw !! "help" = Some (PList l)))).
Proof.
  intros [c Hc] Hty.
  assert (K : forall kw1, describe args kw = Ok kw1 ->
                add_value_option p args kw = Raise (KeyError "type")).
  { intros kw1 H1. unfold add_value_option. rewrite H1. simpl.
    unfold drop_type_for_choices.
    rewrite (describe_other_keys args kw kw1 "choices" H1) by discriminate.
    rewrite (describe_other_keys args kw kw1 "type" H1) by discriminate.
    now rewrite Hc, Hty. }
  split.
  - destruct (describe args kw) as [kw1|e] eqn:E.
    + eexists. now apply (K kw1).
    + exists e. unfold add_value_option. now rewrite E.
  - rewrite <- describe_succeeds_iff. split.
    + intros H. destruct (describe args kw) as [kw1|e] eqn:E; [eauto|].
      unfold add_value_option in H. rewrite E in H. simpl in H.
      injection H as ->. now apply describe_error in E.
    + intros [kw1 H1]. now apply (K kw1).
Qed.

Lemma add_value_option_choices_needs_type_witness :
  add_value_option [] output_format with_choices = Raise (KeyError "type").
Proof.
  destruct (add_value_option_choices_needs_type [] output_format with_choices)
    as [_ K].
  - vm_compute. eauto.
  - vm_compute. reflexivity.
  - apply K. split; [discriminate|]. split.
    + right. exists "--output-format". split; [|reflexivity]. right. now left.
    + intros d Hd. vm_compute in Hd. discriminate.
Defined.

End OptionFacts.

(** ** RPC usage summary *)

Module UsageFacts.
Import Py Usage Samples.

(** C8: when the request counter, the request size, the response time
    read by [rpc_stats] and the response size are all zero, [rpc_stats]
    does not raise: it returns the summary with [0] requests, both sizes
    rendered from zero and [0.0] seconds; the text starts with
    [0 requests]. *)
Theorem rpc_stats_zero (human_size : spec_float -> string) (io : scgi) :
  request_counter io = PyFloat.zero ->
  request_size_counter io = PyFloat.zero ->
  total (response_time_summary io) = PyFloat.zero ->
  response_size_counter io = PyFloat.zero ->
  rpc_stats human_size io
  = Ok ("0 requests (" +:+ human_size PyFloat.zero +:+ ") in 0.0s (repsonse "
          +:+ human_size PyFloat.zero +:+ ")")
  /\ exists s, rpc_stats human_size io = Ok s
               /\ String.prefix "0 requests" s = true.
Proof.
  intros H1 H2 H3 H4.
  assert (E : rpc_stats human_size io
              = Ok ("0 requests (" +:+ human_size PyFloat.zero
                      +:+ ") in 0.0s (repsonse "
                      +:+ human_size PyFloat.zero +:+ ")")).
  { unfold rpc_stats. rewrite H1, H2, H4. simpl. rewrite H3. reflexivity. }
  split; [exact E|].
  eexists. split; [exact E|]. reflexivity.
Qed.

Lemma rpc_stats_zero_witness :
  rpc_stats (fun _ => "   0 bytes") fresh
  = Ok "0 requests (   0 bytes) in 0.0s (repsonse    0 bytes)".
Proof.
  exact (proj1 (rpc_stats_zero (fun _ => "   0 bytes") fresh
                  eq_refl eq_refl eq_refl eq_refl)).
Defined.

End UsageFacts.

(** ** The run skeleton *)

Module LifecycleFacts.
Import Py Options Lifecycle Samples.

(** *** Closure of [quiet] and [keeps] under the combinators *)

Lemma quiet_ret {A} (a : A) : quiet (ret a).
Proof. intros w. constructor. Qed.

Lemma quiet_raise {A} (e : exn) : quiet (@raise A e).
Proof. intros w. constructor. Qed.

Lemma quiet_gets {A} (f : world -> A) : quiet (gets f).
Proof. intros w. constructor. Qed.

Lemma quiet_modify (f : world -> world) : quiet (modify f).
Proof. intros w. constructor. Qed.

Lemma quiet_lift {A} (r : result A) : quiet (lift r).
Proof. intros w. constructor. Qed.

Lemma quiet_emit (ev : event) : plain ev -> quiet (emit ev).
Proof. intros H w. simpl. constructor; [exact H | constructor]. Qed.

Lemma quiet_bind {A B} (m : M A) (k : A -> M B) :
  quiet m -> (forall a, quiet (k a)) -> quiet (bind m k).
Proof.
  intros Hm Hk w. unfold bind. specialize (Hm w).
  destruct (m w) as [[ev w1] [a|e]]; simpl in *; [|exact Hm].
  specialize (Hk a w1). destruct (k a w1) as [[ev2 w2] r]; simpl in *.
  apply Forall_app. now split.
Qed.

Lemma quiet_try_except {A} (m : M A) (h : exn -> M A) :
  quiet m -> (forall e, quiet (h e)) -> quiet (try_except m h).
Proof.
  intros Hm Hh w. unfold try_except. specialize (Hm w).
  destruct (m w) as [[ev w1] [a|e]]; simpl in *; [exact Hm|].
  specialize (Hh e w1). destruct (h e w1) as [[ev2 w2] r]; simpl in *.
  apply Forall_app. now split.
Qed.

Section Keeps.
Context {B : Type} (f : world -> B).

Lemma keeps_ret {A} (a : A) : keeps f (ret a).
Proof. now intros w. Qed.

Lemma keeps_raise {A} (e : exn) : keeps f (@raise A e).
Proof. now intros w. Qed.

Lemma keeps_gets {A} (g : world -> A) : keeps f (gets g).
Proof. now intros w. Qed.

Lemma keeps_lift {A} (r : result A) : keeps f (lift r).
Proof. now intros w. Qed.

Lemma keeps_emit (ev : event) : keeps f (emit ev).
Proof. now intros w. Qed.

Lemma keeps_modify (g : world -> world) :
  (forall w, f (g w) = f w) -> keeps f (modify g).
Proof. intros H w. apply H. Qed.

Lemma keeps_bind {A C} (m : M A) (k : A -> M C) :
  keeps f m -> (forall a, keeps f (k a)) -> keeps f (bind m k).
Proof.
  intros Hm Hk w. unfold bind. specialize (Hm w).
  destruct (m w) as [[ev w1] [a|e]]; simpl in *; [|exact Hm].
  specialize (Hk a w1). destruct (k a w1) as [[ev2 w2] r]; simpl in *.
  congruence.
Qed.

Lemma keeps_try_except {A} (m : M A) (h : exn -> M A) :
  keeps f m -> (forall e, keeps f (h e)) -> keeps f (try_except m h).
Proof.
  intros Hm Hh w. unfold try_except. specialize (Hm w).
  destruct (m w) as [[ev w1] [a|e]]; simpl in *; [exact Hm|].
  specialize (Hh e w1). destruct (h e w1) as [[ev2 w2] r]; simpl in *.
  congruence.
Qed.
End Keeps.

Lemma plain_print f text : plain (EvPrint f text).
Proof. now split. Qed.

Lemma quiet_argparse (r : parsed) : quiet (argparse r).
Proof.
  intros w. simpl. unfold shown.
  induction (printed r) as [|o l IH]; constructor;
    [apply plain_print | exact IH].
Qed.

Lemma keeps_argparse {B} (f : world -> B) (r : parsed) : keeps f (argparse r).
Proof. now intros w. Qed.

Lemma plain_tool what : plain (EvTool what).
Proof. now split. Qed.

Lemma plain_set_level l : plain (EvSetLevel l).
Proof. now split. Qed.

Lemma plain_log level msg a :
  msg <> "Total time: %.3f seconds." -> plain (EvLog level msg a).
Proof.
  intros H. split; [|reflexivity]. simpl.
  apply andb_false_iff. right. now apply String.eqb_neq.
Qed.

(** One step of a proof that a computation is [quiet] or [keeps] a
    component: split the combinator, close the leaves. *)
Ltac step :=
  match goal with
  | |- quiet (bind _ _) => apply quiet_bind; [|intros ?]
  | |- quiet (try_except _ _) => apply quiet_try_except; [|intros ?]
  | |- quiet (ret _) => apply quiet_ret
  | |- quiet (raise _) => apply quiet_raise
  | |- quiet (sys_exit _) => apply quiet_raise
  | |- quiet (gets _) => apply quiet_gets
  | |- quiet (modify _) => apply quiet_modify
  | |- quiet (lift _) => apply quiet_lift
  | |- quiet (emit _) => apply quiet_emit
  | |- quiet (print _ _) => apply quiet_emit, plain_print
  | |- quiet (LOG_log _ _ _) => apply quiet_emit, plain_log; discriminate
  | |- keeps _ (bind _ _) => apply keeps_bind; [|intros ?]
  | |- keeps _ (try_except _ _) => apply keeps_try_except; [|intros ?]
  | |- keeps _ (ret _) => apply keeps_ret
  | |- keeps _ (raise _) => apply keeps_raise
  | |- keeps _ (sys_exit _) => apply keeps_raise
  | |- keeps _ (gets _) => apply keeps_gets
  | |- keeps _ (lift _) => apply keeps_lift
  | |- keeps _ (emit _) => apply keeps_emit
  | |- keeps _ (print _ _) => apply keeps_emit
  | |- keeps _ (LOG_log _ _ _) => apply keeps_emit
  | |- keeps _ (modify _) => apply keeps_modify; intros []; reflexivity
  | |- context [match ?x with _ => _ end] => destruct x
  | |- context [if ?b then _ else _] => destruct b
  end.

Ltac steps := repeat step.

Section Facts.
Variables EX_SOFTWARE EX_TEMPFAIL EX_IOERR EPIPE : Z.
Variable format_exc : exn -> string.
Variable t : tool.
Variable env : environment.

Local Abbreviation run := (run EX_SOFTWARE EX_TEMPFAIL EX_IOERR EPIPE format_exc t env).
Local Abbreviation on_failure := (on_failure EX_SOFTWARE EX_TEMPFAIL EX_IOERR EPIPE format_exc).
Local Abbreviation guarded := (guarded EX_SOFTWARE EX_TEMPFAIL EX_IOERR EPIPE format_exc t env).
Local Abbreviation failure_outcome := (failure_outcome EX_SOFTWARE EX_TEMPFAIL EX_IOERR EPIPE).
Local Abbreviation configure := (configure env).
Local Abbreviation options_after_parsing := (options_after_parsing t env).

Lemma quiet_declare_all ds : quiet (declare_all ds).
Proof.
  induction ds as [|d ds IH]; simpl; [apply quiet_ret|].
  apply quiet_bind; [|intros _; exact IH]. unfold declare. steps.
Qed.

Lemma keeps_declare_all {B} (f : world -> B) ds :
  (forall p w, f (with_parser p w) = f w) -> keeps f (declare_all ds).
Proof.
  intros Hf. induction ds as [|d ds IH]; simpl; [apply keeps_ret|].
  apply keeps_bind; [|intros _; exact IH]. unfold declare.
  apply keeps_bind; [apply keeps_gets|intros p].
  apply keeps_bind; [apply keeps_lift|intros p'].
  apply keeps_modify. apply Hf.
Qed.

Lemma quiet_parse_options : quiet (parse_options t env).
Proof.
  unfold parse_options, add_options, parser_add_argument.
  repeat (apply quiet_bind; [|intros ?]); try apply quiet_modify;
    try apply quiet_gets; try apply quiet_argparse; try apply quiet_declare_all.
  destruct (base t); [apply quiet_ret | apply quiet_modify].
Qed.

Lemma keeps_parse_options {B} (f : world -> B) :
  (forall p w, f (with_parser p w) = f w) -> keeps f (parse_options t env).
Proof.
  intros Hf. unfold parse_options, add_options, parser_add_argument.
  repeat (apply keeps_bind; [|intros ?]);
    try (apply keeps_modify; intros ?; apply Hf);
    try apply keeps_gets; try apply keeps_argparse;
    try (apply keeps_declare_all; exact Hf).
  destruct (base t); [apply keeps_ret|].
  apply keeps_modify; intros ?; apply Hf.
Qed.

Lemma quiet_after_parse ns : quiet (after_parse ns).
Proof. unfold after_parse, getattr, setLevel. steps. apply plain_set_level. Qed.

Lemma keeps_options_after_parse ns : keeps options (after_parse ns).
Proof. unfold after_parse, getattr, setLevel. steps. Qed.

Lemma keeps_return_code_after_parse ns : keeps return_code (after_parse ns).
Proof. unfold after_parse, getattr, setLevel. steps. Qed.

Lemma ScriptBase_get_options_eq :
  ScriptBase_get_options t env
  = bind (parse_options t env)
      (fun ns => modify (with_options (Some ns)) >>> after_parse ns).
Proof. reflexivity. Qed.

Lemma quiet_ScriptBase_get_options : quiet (ScriptBase_get_options t env).
Proof.
  rewrite ScriptBase_get_options_eq.
  apply quiet_bind; [apply quiet_parse_options|intros ns].
  apply quiet_bind; [apply quiet_modify|intros _; apply quiet_after_parse].
Qed.

Lemma keeps_return_code_ScriptBase_get_options :
  keeps return_code (ScriptBase_get_options t env).
Proof.
  rewrite ScriptBase_get_options_eq.
  apply keeps_bind; [apply keeps_parse_options; now intros p []|intros ns].
  apply keeps_bind; [apply keeps_modify; now intros []|intros _].
  apply keeps_return_code_after_parse.
Qed.

Lemma options_ScriptBase_get_options w :
  options (ScriptBase_get_options t env w).1.2 = options_after_parsing w.
Proof.
  rewrite ScriptBase_get_options_eq. unfold options_after_parsing, bind at 1.
  pose proof (keeps_parse_options options (fun p '(World _ _ _ _ _ _ _ _ _) => eq_refl) w) as K.
  destruct (parse_options t env w) as [[ev w1] [ns|e]]; simpl in *; [|exact K].
  pose proof (keeps_options_after_parse ns (with_options (Some ns) w1)) as K2.
  unfold bind, modify. simpl.
  destruct (after_parse ns (with_options (Some ns) w1)) as [[ev2 w2] r].
  simpl in *. rewrite K2. now destruct w1.
Qed.

Lemma quiet_configure : quiet configure.
Proof. unfold configure, getattr, may_raise. steps. Qed.

Lemma keeps_options_configure : keeps options configure.
Proof. unfold configure, getattr, may_raise. steps. Qed.

Lemma keeps_return_code_configure : keeps return_code configure.
Proof. unfold configure, getattr, may_raise. steps. Qed.

Lemma get_options_eq :
  get_options t env
  = match base t with
    | ScriptBase => ScriptBase_get_options t env
    | ScriptBaseWithConfig => ScriptBase_get_options t env >>> configure
    end.
Proof. reflexivity. Qed.

(** After a computation that fixes [options] comes one that keeps
    them. *)
Lemma options_then {A C} (m : M A) (k : A -> M C)
    (after : world -> option (gmap string pyval)) :
  (forall w, options (m w).1.2 = after w) ->
  (forall a, keeps options (k a)) ->
  forall w, options (bind m k w).1.2 = after w.
Proof.
  intros Hm Hk w. unfold bind. specialize (Hm w).
  destruct (m w) as [[ev w1] [a|e]]; simpl in *; [|exact Hm].
  specialize (Hk a w1). destruct (k a w1) as [[ev2 w2] r]; simpl in *.
  congruence.
Qed.

Lemma quiet_get_options : quiet (get_options t env).
Proof.
  rewrite get_options_eq. destruct (base t).
  - apply quiet_ScriptBase_get_options.
  - apply quiet_bind; [apply quiet_ScriptBase_get_options|intros _].
    apply quiet_configure.
Qed.

Lemma keeps_return_code_get_options : keeps return_code (get_options t env).
Proof.
  rewrite get_options_eq. destruct (base t).
  - apply keeps_return_code_ScriptBase_get_options.
  - apply keeps_bind; [apply keeps_return_code_ScriptBase_get_options|intros _].
    apply keeps_return_code_configure.
Qed.

Lemma options_get_options w :
  options (get_options t env w).1.2 = options_after_parsing w.
Proof.
  rewrite get_options_eq. destruct (base t).
  - apply options_ScriptBase_get_options.
  - apply options_then; [apply options_ScriptBase_get_options|intros _].
    apply keeps_options_configure.
Qed.

Lemma quiet_effects (l : list string) : quiet (fun w => (map EvTool l, w, Ok tt)).
Proof.
  intros w. simpl. induction l as [|x l IH]; constructor;
    [apply plain_tool | exact IH].
Qed.

Lemma quiet_mainloop : quiet (mainloop t).
Proof.
  unfold mainloop, may_raise. destruct (mainloop_body t) as [sc|]; [|steps].
  apply quiet_bind; [apply quiet_effects|intros _]. steps.
Qed.

Lemma keeps_options_mainloop : keeps options (mainloop t).
Proof.
  unfold mainloop, may_raise. destruct (mainloop_body t) as [sc|]; [|steps].
  apply keeps_bind; [now intros w|intros _]. steps.
Qed.

Lemma quiet_on_failure e :
  quiet (on_failure e).
Proof. unfold on_failure. destruct e; steps. Qed.

Lemma keeps_on_failure {B} (f : world -> B) e :
  keeps f (on_failure e).
Proof. unfold on_failure. destruct e; steps. Qed.

Lemma quiet_guarded : quiet guarded.
Proof.
  apply quiet_try_except; [|apply quiet_on_failure].
  apply quiet_bind; [apply quiet_get_options|intros _; apply quiet_mainloop].
Qed.

Lemma options_guarded w : options (guarded w).1.2 = options_after_parsing w.
Proof.
  unfold guarded, try_except.
  pose proof (options_then (get_options t env) (fun _ => mainloop t) _
                options_get_options (fun _ => keeps_options_mainloop) w) as K.
  fold (attempt t env) in K.
  destruct (attempt t env w) as [[ev w1] [a|e]]; simpl in *; [exact K|].
  pose proof (keeps_on_failure options e w1) as K2.
  destruct (on_failure e w1) as [[ev2 w2] r]; simpl in *.
  congruence.
Qed.

Lemma shut_down_eq w : shut_down true w = (closing w, w, Ok tt).
Proof.
  unfold shut_down, closing, bind, gets, time_time, LOG_log, emit, ret. simpl.
  destruct (bool_decide (is_Some (options w))); reflexivity.
Qed.

(** [run] is the guarded attempt, then the [finally] clause, then the
    check of the return code if nothing was raised. *)
Lemma run_eq w :
  run w
  = let '(ev, w1, r) := guarded w in
    ((ev ++ closing w1)%list, w1,
     match r with
     | Ok _ => if (return_code w1 =? 0)%Z then Ok tt
               else Raise (SystemExit (return_code w1))
     | Raise e => Raise e
     end).
Proof.
  unfold run, bind at 1, try_finally. fold guarded.
  destruct (guarded w) as [[ev w1] r]. rewrite shut_down_eq.
  destruct r as [[]|e]; [|reflexivity].
  unfold bind, gets, sys_exit, raise, ret. simpl.
  destruct (return_code w1 =? 0)%Z; simpl; now rewrite app_nil_r.
Qed.

Lemma count_app f (a b : list event) :
  count f (a ++ b) = (count f a + count f b)%nat.
Proof. unfold count. now rewrite List.filter_app, length_app. Qed.

Lemma count_plain (evs : list event) :
  Forall plain evs ->
  count is_total_time evs = 0%nat /\ count is_shutdown evs = 0%nat.
Proof.
  unfold count. induction 1 as [|ev evs [H1 H2] _ [IH1 IH2]]; [now split|].
  simpl. now rewrite H1, H2.
Qed.

Lemma parsing_completes_options w :
  options w = None ->
  is_Some (options_after_parsing w) <-> parsing_completes t env w = true.
Proof.
  intros H. unfold options_after_parsing, parsing_completes.
  destruct (parse_options t env w) as [[ev w1] [ns|e]]; simpl.
  - split; eauto.
  - rewrite H. split; [intros [? ?]|]; discriminate.
Qed.

Lemma mainloop_returns w ev w1 :
  mainloop t w = (ev, w1, Ok tt) ->
  exists sc, mainloop_body t = Some sc
             /\ return_code w1 = default (return_code w) (sets_return_code sc).
Proof.
  unfold mainloop. destruct (mainloop_body t) as [sc|]; [|discriminate].
  intros H. exists sc. split; [reflexivity|].
  unfold bind, modify, may_raise, ret, raise in H. simpl in H.
  destruct w; destruct (sets_return_code sc), (raises sc);
    simpl in H; inversion H; reflexivity.
Qed.

Lemma attempt_returns w ev w1 :
  attempt t env w = (ev, w1, Ok tt) ->
  exists sc, mainloop_body t = Some sc
             /\ return_code w1 = default (return_code w) (sets_return_code sc).
Proof.
  unfold attempt, bind. intros H.
  pose proof (keeps_return_code_get_options w) as K.
  destruct (get_options t env w) as [[ev0 w0] [[]|e]]; [|discriminate].
  simpl in K. rewrite <- K.
  destruct (mainloop t w0) as [[ev2 w2] r] eqn:E.
  inversion H; subst. now apply (mainloop_returns w0 ev2).
Qed.

(** C3: in a run started with no options yet, a total-time line goes
    to the logger (at [STD_LOG_LEVEL]) exactly once when the parser
    returns and not at all when it does not, whatever the subcommand
    does; [logging.shutdown()] is called exactly once, as the last
    effect of every run. *)
Theorem run_total_time_and_shutdown (w : world) :
  options w = None ->
  let evs := (run w).1.1 in
  count is_total_time evs = (if parsing_completes t env w then 1 else 0)%nat
  /\ count is_shutdown evs = 1%nat
  /\ last evs = Some EvShutdown.
Proof.
  intros H. rewrite run_eq.
  pose proof (quiet_guarded w) as Q. pose proof (options_guarded w) as O.
  pose proof (parsing_completes_options w H) as P.
  destruct (guarded w) as [[ev w1] r]. simpl in *.
  destruct (count_plain ev Q) as [T S]. unfold closing.
  rewrite <- O in P. rewrite !count_app, T, S, app_assoc, last_snoc.
  destruct (parsing_completes t env w).
  - rewrite bool_decide_eq_true_2 by now apply P. now repeat split.
  - rewrite bool_decide_eq_false_2; [now repeat split|].
    intros I. apply P in I. discriminate.
Qed.

(** C4: a failure that leaves the two statements of the [try] block is
    classified by its kind. A [LoggableError] has the traceback
    printed and ends in [sys.exit(EX_SOFTWARE)]; a [KeyboardInterrupt]
    has an empty line printed and the abort notice logged, and ends in
    [sys.exit(EX_TEMPFAIL)]; an [OSError] with errno [EPIPE] has the
    notice printed on stderr and ends in [sys.exit(EX_IOERR)]; any
    other [OSError], like any other exception, leaves [run] as it
    came. *)
Theorem run_classifies_failure (w w1 : world) (ev : list event) (e : exn) :
  attempt t env w = (ev, w1, Raise e) ->
  run w
  = match e with
    | LoggableError _ =>
        (ev ++ [EvPrint Stdout (format_exc e)] ++ closing w1, w1,
         Raise (SystemExit EX_SOFTWARE))
    | KeyboardInterrupt =>
        (ev ++ [EvPrint Stdout EmptyString;
                EvLog CRITICAL ("Aborted by CTRL-C!" +:+ newline) []]
            ++ closing w1, w1,
         Raise (SystemExit EX_TEMPFAIL))
    | OSError errno text =>
        if decide (errno = Some EPIPE) then
          (ev ++ [EvPrint Stderr (newline +:+ text +:+ ", exiting!" +:+ newline)]
              ++ closing w1, w1,
           Raise (SystemExit EX_IOERR))
        else (ev ++ closing w1, w1, Raise e)
    | _ => (ev ++ closing w1, w1, Raise e)
    end%list.
Proof.
  intros H. rewrite run_eq. unfold guarded, try_except. rewrite H.
  destruct e; simpl; rewrite ?app_nil_r, <- ?app_assoc; try reflexivity.
  destruct (decide (errno = Some EPIPE)); simpl;
    now rewrite ?app_nil_r, <- ?app_assoc.
Qed.

Lemma wait_status_small (c : Z) : (0 <= c < 256)%Z -> wait_status c = c.
Proof.
  intros H. unfold wait_status.
  rewrite (proj2 (Z.leb_le _ _)), (proj2 (Z.ltb_lt _ _)) by lia.
  simpl. now apply Z.mod_small.
Qed.

Lemma wait_status_long (c : Z) :
  (- 2 ^ 63 <= c < 2 ^ 63)%Z -> wait_status c = (c mod 256)%Z.
Proof.
  intros H. unfold wait_status.
  now rewrite (proj2 (Z.leb_le _ _)), (proj2 (Z.ltb_lt _ _)) by lia.
Qed.


End Facts.

Lemma run_total_time_and_shutdown_witness :
  let evs := (run 70 75 74 32 traceback (job (Some KeyboardInterrupt)) parses started).1.1 in
  count is_total_time evs = 1%nat
  /\ count is_shutdown evs = 1%nat
  /\ last evs = Some EvShutdown.
Proof.
  exact (run_total_time_and_shutdown 70 75 74 32 traceback
           (job (Some KeyboardInterrupt)) parses started eq_refl).
Defined.

Lemma run_classifies_failure_witness :
  run 70 75 74 32 traceback
    (job (Some (OSError (Some 32) "[Errno 32] Broken pipe"))) parses started
  = ([EvLog DEBUG "Options: %s" [LStr "args=[], log_level=None, url=None"];
      EvTool "work";
      EvPrint Stderr (newline +:+ "[Errno 32] Broken pipe, exiting!" +:+ newline);
      EvLog STD_LOG_LEVEL "Total time: %.3f seconds."
        [LFloat (S754_finite false 4503599627370496 (-51))];
      EvShutdown],
     with_engine true
       (with_return_code 5
          (with_args (Some (PList []))
             (with_options (Some no_options)
                (with_parser
                   (attempt (job None) parses started).1.2.(parser)
                   started)))),
     Raise (SystemExit 74)).
Proof.
  rewrite (run_classifies_failure 70 75 74 32 traceback
             (job (Some (OSError (Some 32) "[Errno 32] Broken pipe")))
             parses started _ _ _ eq_refl).
  vm_compute. reflexivity.
Defined.



(** The other rows of the classifier, and the runs in which the parser
    does not return, on the sample tool. *)
Example interrupt_is_a_temporary_failure :
  let '(evs, _, r) :=
    run 70 75 74 32 traceback (job (Some KeyboardInterrupt)) parses started in
  r = Raise (SystemExit 75)
  /\ count is_total_time evs = 1%nat
  /\ List.filter (fun ev => match ev with EvPrint _ _ => true | _ => false end) evs
     = [EvPrint Stdout EmptyString].
Proof. vm_compute. repeat split. Qed.

Example domain_error_shows_the_traceback :
  let '(evs, _, r) :=
    run 70 75 74 32 traceback (job (Some (LoggableError "bad"))) parses started in
  r = Raise (SystemExit 70)
  /\ In (EvPrint Stdout (traceback (LoggableError "bad"))) evs.
Proof. vm_compute. split; [reflexivity|]. tauto. Qed.

Example other_os_error_is_raised_again :
  (run 70 75 74 32 traceback
     (job (Some (OSError (Some 13) "[Errno 13] Permission denied")))
     parses started).2
  = Raise (OSError (Some 13) "[Errno 13] Permission denied").
Proof. vm_compute. reflexivity. Qed.

Example usage_error_logs_no_total_time :
  let '(evs, _, r) := run 70 75 74 32 traceback (job None) usage_error started in
  evs = [EvPrint Stderr "usage: tool [options] <log-base>...";
         EvPrint Stderr "tool: error: unrecognized arguments: --bogus";
         EvShutdown]
  /\ r = Raise (SystemExit 2).
Proof. vm_compute. split; reflexivity. Qed.

Example failure_ignores_the_return_code :
  let '(_, w, r) :=
    run 70 75 74 32 traceback (job (Some (LoggableError "bad"))) parses started in
  return_code w = 5 /\ exit_status r = 70.
Proof. vm_compute. split; reflexivity. Qed.

End LifecycleFacts.

(** ** More on option registration *)

Module OptionExtras.
Import Py Options Samples OptionFacts.

Lemma dash_to_underscore_no_dash (s : string) :
  contains_char "-" (dash_to_underscore s) = false.
Proof.
  induction s as [|c s IH]; [reflexivity|].
  destruct c as [[] [] [] [] [] [] [] []]; simpl; exact IH.
Qed.

(** The first element a filter keeps, and what comes before it. *)
Lemma filter_first {A} (f : A -> bool) (l : list A) (x : A) (r : list A) :
  List.filter f l = x :: r ->
  exists pre post, l = (pre ++ x :: post)%list
                   /\ (forall y, In y pre -> f y = false) /\ f x = true.
Proof.
  induction l as [|a l IH]; [discriminate|]. simpl.
  destruct (f a) eqn:Fa.
  - intros [= -> <-]. exists [], l. repeat split; [intros y []|exact Fa].
  - intros H. destruct (IH H) as (pre & post & -> & Hp & Hx).
    exists (a :: pre), post. repeat split; [|exact Hx].
    intros y [<-|I]; [exact Fa|now apply Hp].
Qed.

(** X1: a successful [add_bool_option] appends exactly one argument
    that keeps every option string passed; its keywords are [dest],
    derived from the first option string that starts with two dashes
    (those removed, every dash left turned into an underscore, so that
    no dash remains), the action [store_true], the default [False] and
    the help text passed, and nothing else of the keywords passed. *)
Theorem add_bool_option_registered (p p' : parser) (args : list string)
    (kw : gmap string pyval) :
  add_bool_option p args kw = Ok p' ->
  exists (pre : list string) (o : string) (post : list string) (h : pyval),
    args = (pre ++ o :: post)%list
    /\ (forall x, In x pre -> String.prefix "--" x = false)
    /\ String.prefix "--" o = true
    /\ kw !! "help" = Some h
    /\ contains_char "-" (dash_to_underscore (drop_double_dash o)) = false
    /\ p' = (p ++ [Argument args
                     (<["dest" := PStr (dash_to_underscore (drop_double_dash o))]>
                        (<["action" := PStr "store_true"]>
                           (<["default" := PBool false]> {["help" := h]})))])%list.
Proof.
  unfold add_bool_option, long_option_dest. intros H.
  destruct (List.filter (String.prefix "--") args) as [|o r] eqn:F; [discriminate|].
  simpl in H. unfold getitem in H.
  destruct (kw !! "help") as [h|] eqn:Hh; [|discriminate].
  simpl in H. injection H as <-.
  destruct (filter_first _ _ _ _ F) as (pre & post & E & Hp & Ho).
  exists pre, o, post, h. split; [exact E|]. split; [exact Hp|].
  split; [exact Ho|]. split; [reflexivity|].
  split; [apply dash_to_underscore_no_dash|reflexivity].
Qed.

(** X2: [add_bool_option] raises [IndexError] when no option string
    starts with two dashes, whatever the keywords; with a long option
    and no [help] keyword it raises [KeyError] for [help]. *)
Theorem add_bool_option_errors (p : parser) (args : list string)
    (kw : gmap string pyval) :
  ((forall o, In o args -> String.prefix "--" o = false) ->
   add_bool_option p args kw = Raise (IndexError "list index out of range"))
  /\ ((exists o, In o args /\ String.prefix "--" o = true) ->
      kw !! "help" = None ->
      add_bool_option p args kw = Raise (KeyError "help")).
Proof.
  split.
  - intros H. unfold add_bool_option. now rewrite (long_option_dest_raises _ H).
  - intros (o & I & P) Hh. unfold add_bool_option.
    destruct (long_option_dest_some args o I P) as [d ->]. simpl.
    unfold getitem. now rewrite Hh.
Qed.

Lemma add_bool_option_reads_help_only (p : parser) (args : list string)
    (kw1 kw2 : gmap string pyval) :
  kw1 !! "help" = kw2 !! "help" ->
  add_bool_option p args kw1 = add_bool_option p args kw2.
Proof. intros H. unfold add_bool_option, getitem. now rewrite H. Qed.


Lemma describe_metavar_dest (args : list string) (kw kw1 : gmap string pyval) :
  describe args kw = Ok kw1 ->
  exists m, last args = Some m
    /\ kw1 !! "metavar" = Some (PStr m)
    /\ match kw !! "dest" with
       | Some d => kw1 !! "dest" = Some d
       | None => exists o, In o args /\ String.prefix "--" o = true
                   /\ kw1 !! "dest"
                      = Some (PStr (dash_to_underscore (drop_double_dash o)))
       end.
Proof.
  unfold describe. intros H.
  destruct (last args) as [m|] eqn:L; [|discriminate]. simpl in H.
  exists m. split; [reflexivity|].
  rewrite lookup_insert_ne in H by discriminate.
  assert (T : forall kw2 : gmap string pyval,
            match kw2 !! "default" with
            | Some d =>
                if truthy d then
                  rbind (getitem kw2 "help") (fun help =>
                  rbind (iadd_str help (" [" +:+ str d +:+ "]")) (fun help =>
                  Ok (<["help" := help]> kw2)))
                else Ok kw2
            | None => Ok kw2
            end = Ok kw1 ->
            kw1 !! "metavar" = kw2 !! "metavar" /\ kw1 !! "dest" = kw2 !! "dest").
  { intros kw2 E. destruct (kw2 !! "default") as [d|]; [|now injection E as <-].
    destruct (truthy d); [|now injection E as <-].
    apply OptionFacts.rbind_ok in E as (h & _ & E).
    apply OptionFacts.rbind_ok in E as (h' & _ & E).
    injection E as <-. now rewrite !lookup_insert_ne by discriminate. }
  destruct (kw !! "dest") as [d|] eqn:D; simpl in H.
  - apply T in H as [-> ->].
    rewrite lookup_insert_eq, lookup_insert_ne by discriminate. auto.
  - destruct (long_option_dest args) as [d|e] eqn:E; [|discriminate]. simpl in H.
    apply T in H as [-> ->].
    rewrite lookup_insert_ne, !lookup_insert_eq by discriminate.
    split; [reflexivity|].
    apply long_option_dest_ok in E as (o & I & P & ->). eauto.
Qed.

(** X3: a successful [add_value_option] appends exactly one argument:
    its option strings are the positional arguments but the last, which
    becomes the metavar; a destination passed by the caller is kept, a
    derived one has no dash; every keyword other than [metavar], [dest],
    [help] and [type] is registered as passed. *)
Theorem add_value_option_registered (p p' : parser) (args : list string)
    (kw : gmap string pyval) :
  add_value_option p args kw = Ok p' ->
  exists (m : string) (kw' : gmap string pyval),
    last args = Some m
    /\ p' = (p ++ [Argument (removelast args) kw'])%list
    /\ kw' !! "metavar" = Some (PStr m)
    /\ (forall d, kw !! "dest" = Some d -> kw' !! "dest" = Some d)
    /\ (kw !! "dest" = None ->
        exists d, kw' !! "dest" = Some (PStr d) /\ contains_char "-" d = false)
    /\ (forall key, key <> "metavar" -> key <> "dest" -> key <> "help" ->
        key <> "type" -> kw' !! key = kw !! key).
Proof.
  unfold add_value_option. intros H.
  apply OptionFacts.rbind_ok in H as (kw1 & H1 & H).
  apply OptionFacts.rbind_ok in H as (kw2 & H2 & H). injection H as <-.
  destruct (describe_metavar_dest args kw kw1 H1) as (m & L & M & D).
  assert (K : forall key, key <> "type" -> kw2 !! key = kw1 !! key).
  { intros key Hk. unfold drop_type_for_choices in H2.
    destruct (kw1 !! "choices"); [|now injection H2 as <-].
    destruct (kw1 !! "type"); [|discriminate]. injection H2 as <-.
    now rewrite lookup_delete_ne. }
  exists m, kw2. split; [exact L|]. split; [reflexivity|].
  split; [rewrite K by discriminate; exact M|].
  split; [|split].
  - intros d Hd. rewrite Hd in D. rewrite K by discriminate. exact D.
  - intros Hd. rewrite Hd in D. destruct D as (o & _ & _ & D).
    eexists. rewrite K by discriminate. split; [exact D|].
    apply dash_to_underscore_no_dash.
  - intros key ? ? ? ?. rewrite K by assumption.
    now apply (OptionFacts.describe_other_keys args).
Qed.


Lemma add_value_option_ok (p p' : parser) (args : list string)
    (kw : gmap string pyval) :
  add_value_option p args kw = Ok p' ->
  exists kw1 kw',
    describe args kw = Ok kw1
    /\ drop_type_for_choices kw1 = Ok kw'
    /\ p' = (p ++ [Argument (removelast args) kw'])%list.
Proof.
  unfold add_value_option. intros H.
  apply OptionFacts.rbind_ok in H as (kw1 & H1 & H).
  apply OptionFacts.rbind_ok in H as (kw2 & H2 & H). injection H as <-.
  eauto.
Qed.

Lemma drop_type_other (kw1 kw' : gmap string pyval) (key : string) :
  drop_type_for_choices kw1 = Ok kw' -> key <> "type" -> kw' !! key = kw1 !! key.
Proof.
  unfold drop_type_for_choices. intros H Hk.
  destruct (kw1 !! "choices"); [|now injection H as <-].
  destruct (kw1 !! "type"); [|discriminate]. injection H as <-.
  now rewrite lookup_delete_ne.
Qed.

(** X4: what [add_value_option] registers as help text: with a truthy
    default and a string help, the help followed by the default in
    square brackets; with a default that is falsy (zero, empty, [None],
    [False]) or no default, the help as passed. *)
Theorem add_value_option_help (p p' : parser) (args : list string)
    (kw : gmap string pyval) :
  add_value_option p args kw = Ok p' ->
  exists kw' : gmap string pyval,
    p' = (p ++ [Argument (removelast args) kw'])%list
    /\ (forall d s, kw !! "default" = Some d -> truthy d = true ->
          kw !! "help" = Some (PStr s) ->
          kw' !! "help" = Some (PStr (s +:+ " [" +:+ str d +:+ "]")))
    /\ (forall d, kw !! "default" = Some d -> truthy d = false ->
          kw' !! "help" = kw !! "help")
    /\ (kw !! "default" = None -> kw' !! "help" = kw !! "help").
Proof.
  intros H. apply add_value_option_ok in H as (kw1 & kw' & H1 & H2 & ->).
  exists kw'. split; [reflexivity|].
  rewrite (drop_type_other kw1 kw' "help" H2) by discriminate.
  rewrite describe_eq in H1.
  destruct (last args) as [m|]; [|discriminate].
  apply OptionFacts.rbind_ok in H1 as (kw2 & E2 & H1).
  assert (Hh : kw2 !! "help" = kw !! "help").
  { destruct (kw !! "dest"); [injection E2 as <-|].
    - now rewrite lookup_insert_ne.
    - apply OptionFacts.rbind_ok in E2 as (d & _ & E2). injection E2 as <-.
      now rewrite !lookup_insert_ne. }
  split; [|split].
  - intros d s Hd Ht Hs. rewrite Hd, Ht, Hs in H1. simpl in H1.
    injection H1 as <-. now rewrite lookup_insert_eq.
  - intros d Hd Ht. rewrite Hd, Ht in H1. now injection H1 as <-.
  - intros Hd. rewrite Hd in H1. now injection H1 as <-.
Qed.

(** X5: without a [choices] keyword, [add_value_option] registers the
    [type] keyword as passed (also when there is none). *)
Theorem add_value_option_keeps_type (p p' : parser) (args : list string)
    (kw : gmap string pyval) :
  kw !! "choices" = None ->
  add_value_option p args kw = Ok p' ->
  exists kw' : gmap string pyval,
    p' = (p ++ [Argument (removelast args) kw'])%list
    /\ kw' !! "type" = kw !! "type"
    /\ kw' !! "choices" = None.
Proof.
  intros Hc H. apply add_value_option_ok in H as (kw1 & kw' & H1 & H2 & ->).
  exists kw'. split; [reflexivity|].
  assert (C1 : kw1 !! "choices" = None)
    by (rewrite (OptionFacts.describe_other_keys args kw kw1 "choices" H1);
        [exact Hc | discriminate..]).
  unfold drop_type_for_choices in H2. rewrite C1 in H2. injection H2 as <-.
  split; [|exact C1].
  apply (OptionFacts.describe_other_keys args); [exact H1 | discriminate..].
Qed.

(** X6: [add_value_option] gets through its own statements, to the
    call of [parser.add_argument], exactly when there is a positional
    argument, a destination is given or some positional argument starts
    with two dashes, a truthy default comes with a help that is a string
    or a list, and [choices] comes with [type]; in every other case it
    raises an [IndexError], a [KeyError] or a [TypeError] itself. *)
Theorem add_value_option_prepares_iff (p : parser) (args : list string)
    (kw : gmap string pyval) :
  let ready :=
    args <> []
    /\ (is_Some (kw !! "dest")
        \/ exists o, In o args /\ String.prefix "--" o = true)
    /\ (forall d, kw !! "default" = Some d -> truthy d = true ->
          (exists s, kw !! "help" = Some (PStr s))
          \/ (exists l, kw !! "help" = Some (PList l)))
    /\ (is_Some (kw !! "choices") -> is_Some (kw !! "type")) in
  ((exists kw', rbind (describe args kw) drop_type_for_choices = Ok kw') <-> ready)
  /\ (~ ready ->
      exists e, add_value_option p args kw = Raise e
                /\ ((exists s, e = IndexError s) \/ (exists s, e = KeyError s)
                    \/ (exists s, e = TypeError s))).
Proof.
  cbv zeta.
  assert (I : (exists kw', rbind (describe args kw) drop_type_for_choices = Ok kw')
              <-> args <> []
                  /\ (is_Some (kw !! "dest")
                      \/ exists o, In o args /\ String.prefix "--" o = true)
                  /\ (forall d, kw !! "default" = Some d -> truthy d = true ->
                        (exists s, kw !! "help" = Some (PStr s))
                        \/ (exists l, kw !! "help" = Some (PList l)))
                  /\ (is_Some (kw !! "choices") -> is_Some (kw !! "type"))).
  { split.
    - intros [kw' H]. apply rbind_ok in H as (kw1 & H1 & H2).
      destruct (proj1 (describe_succeeds_iff args kw) (ex_intro _ kw1 H1))
        as (Ha & Hd & Hh).
      split; [exact Ha|]. split; [exact Hd|]. split; [exact Hh|].
      intros [c Hc]. unfold drop_type_for_choices in H2.
      rewrite (describe_other_keys args kw kw1 "choices" H1) in H2 by discriminate.
      rewrite (describe_other_keys args kw kw1 "type" H1) in H2 by discriminate.
      rewrite Hc in H2. destruct (kw !! "type"); [eauto|discriminate].
    - intros (Ha & Hd & Hh & Hc).
      destruct (proj2 (describe_succeeds_iff args kw) (conj Ha (conj Hd Hh)))
        as [kw1 H1].
      rewrite H1. simpl. unfold drop_type_for_choices.
      rewrite (describe_other_keys args kw kw1 "choices" H1) by discriminate.
      rewrite (describe_other_keys args kw kw1 "type" H1) by discriminate.
      destruct (kw !! "choices") as [c|]; [|eauto].
      destruct (Hc (ex_intro _ c eq_refl)) as [ty ->]. eauto. }
  split; [exact I|]. intros N.
  destruct (add_value_option p args kw) as [p'|e] eqn:E.
  - exfalso. apply N, I. apply add_value_option_ok in E as (kw1 & kw' & H1 & H2 & _).
    exists kw'. now rewrite H1.
  - exists e. split; [reflexivity|]. clear N I.
    unfold add_value_option in E.
    destruct (describe args kw) as [kw1|e1] eqn:D; simpl in E.
    + unfold drop_type_for_choices in E.
      destruct (kw1 !! "choices"); [|discriminate].
      destruct (kw1 !! "type"); [discriminate|]. injection E as <-. eauto.
    + injection E as <-. rewrite describe_eq in D.
      destruct (last args) as [m|]; [|injection D as <-; eauto].
      assert (T : forall kw2 : gmap string pyval,
                match kw !! "default" with
                | Some d =>
                    if truthy d then
                      match kw !! "help" with
                      | None => Raise (KeyError "help")
                      | Some h =>
                          rbind (iadd_str h (" [" +:+ str d +:+ "]"))
                            (fun h' => Ok (<["help" := h']> kw2))
                      end
                    else Ok kw2
                | None => Ok kw2
                end = Raise e1 ->
                (exists s, e1 = IndexError s) \/ (exists s, e1 = KeyError s)
                \/ (exists s, e1 = TypeError s)).
      { intros kw2 X. destruct (kw !! "default") as [d|]; [|discriminate].
        destruct (truthy d); [|discriminate].
        destruct (kw !! "help") as [h|]; [|injection X as <-; eauto].
        destruct h; simpl in X; try discriminate; injection X as <-; eauto 6. }
      destruct (kw !! "dest") as [d0|]; simpl in D; [now apply T in D|].
      unfold long_option_dest in D.
      destruct (List.filter (String.prefix "--") args); simpl in D;
        [injection D as <-; eauto|now apply T in D].
Qed.

Lemma add_bool_option_registered_witness :
  exists (pre : list string) (o : string) (post : list string) (h : pyval),
    ["-n"; "--dry-run"; "--simulate"] = (pre ++ o :: post)%list
    /\ (forall x, In x pre -> String.prefix "--" x = false)
    /\ String.prefix "--" o = true
    /\ ({["help" := PStr "do nothing"]} : gmap string pyval) !! "help" = Some h
    /\ contains_char "-" (dash_to_underscore (drop_double_dash o)) = false
    /\ [Argument ["-n"; "--dry-run"; "--simulate"]
          (<["dest" := PStr "dry_run"]>
             (<["action" := PStr "store_true"]>
                (<["default" := PBool false]> {["help" := PStr "do nothing"]})))]
       = ([] ++ [Argument ["-n"; "--dry-run"; "--simulate"]
                   (<["dest" := PStr (dash_to_underscore (drop_double_dash o))]>
                      (<["action" := PStr "store_true"]>
                         (<["default" := PBool false]> {["help" := h]})))])%list.
Proof.
  apply (add_bool_option_registered [] _ ["-n"; "--dry-run"; "--simulate"]
           {["help" := PStr "do nothing"]}).
  vm_compute. reflexivity.
Defined.

Lemma add_bool_option_errors_witness :
  add_bool_option [] ["-n"] {["help" := PStr "do nothing"]}
  = Raise (IndexError "list index out of range")
  /\ add_bool_option [] dry_run ∅ = Raise (KeyError "help").
Proof.
  destruct (add_bool_option_errors [] ["-n"] {["help" := PStr "do nothing"]})
    as [E1 _].
  destruct (add_bool_option_errors [] dry_run ∅) as [_ E2].
  split.
  - apply E1. intros o [<-|[]]. reflexivity.
  - apply E2; [|reflexivity]. exists "--dry-run". split; [|reflexivity].
    right. now left.
Defined.

Lemma add_value_option_registered_witness :
  exists (m : string) (kw' : gmap string pyval),
    last output_format = Some m
    /\ [Argument ["-o"; "--output-format"]
          (<["dest" := PStr "output_format"]>
             (<["metavar" := PStr "FORMAT"]> ∅))]
       = ([] ++ [Argument (removelast output_format) kw'])%list
    /\ kw' !! "metavar" = Some (PStr m)
    /\ (forall d, (∅ : gmap string pyval) !! "dest" = Some d -> kw' !! "dest" = Some d)
    /\ ((∅ : gmap string pyval) !! "dest" = None ->
        exists d, kw' !! "dest" = Some (PStr d) /\ contains_char "-" d = false)
    /\ (forall key, key <> "metavar" -> key <> "dest" -> key <> "help" ->
        key <> "type" -> kw' !! key = (∅ : gmap string pyval) !! key).
Proof.
  apply (add_value_option_registered [] _ output_format ∅).
  vm_compute. reflexivity.
Defined.

Lemma add_value_option_help_witness :
  exists kw' : gmap string pyval,
    add_value_option [] output_format with_default
    = Ok [Argument ["-o"; "--output-format"] kw']
    /\ kw' !! "help" = Some (PStr "output format [json]").
Proof.
  destruct (add_value_option [] output_format with_default) as [p'|e] eqn:E;
    [|vm_compute in E; discriminate].
  destruct (add_value_option_help [] p' output_format with_default E)
    as (kw' & -> & H & _).
  exists kw'. split; [reflexivity|].
  apply (H (PStr "json") "output format"); vm_compute; reflexivity.
Defined.

Lemma add_value_option_keeps_type_witness :
  exists kw' : gmap string pyval,
    add_value_option [] output_format with_default
    = Ok [Argument ["-o"; "--output-format"] kw']
    /\ kw' !! "type" = Some (PType "str").
Proof.
  destruct (add_value_option [] output_format with_default) as [p'|e] eqn:E;
    [|vm_compute in E; discriminate].
  destruct (add_value_option_keeps_type [] p' output_format with_default)
    as (kw' & -> & H & _); [vm_compute; reflexivity|exact E|].
  exists kw'. split; [reflexivity|]. rewrite H. vm_compute. reflexivity.
Defined.

End OptionExtras.

(** ** More on connection aliases *)

Module ConnectionExtras.
Import Py Connections Samples.

Lemma map_lookup_plain (T : gmap string alias_value) (l : list string) :
  (forall v, In v l -> T !! v = None) ->
  map (lookup_connection_alias T) l = l.
Proof.
  induction l as [|v l IH]; intros H; [reflexivity|]. simpl.
  rewrite (ConnectionFacts.lookup_absent T v) by (apply H; now left).
  f_equal. apply IH. intros u I. apply H. now right.
Qed.

(** X7: [multi_connection_lookup] yields nothing only for an alias that
    is stored as the empty list; an unknown token and a string alias
    always yield an element. *)
Theorem multi_connection_lookup_nothing_iff (T : gmap string alias_value) (t : string) :
  multi_connection_lookup T t = [] <-> T !! t = Some (AList []).
Proof.
  unfold multi_connection_lookup. split.
  - destruct (T !! t) as [[s|l]|]; simpl; try discriminate.
    destruct l; [reflexivity|discriminate].
  - now intros ->.
Qed.

(** X8: for an alias stored as a list none of whose entries is itself a
    key of the table, [multi_connection_lookup] yields the entries of
    the list as they are, in their order. *)
Theorem multi_connection_lookup_plain_list (T : gmap string alias_value)
    (t : string) (l : list string) :
  T !! t = Some (AList l) ->
  (forall v, In v l -> T !! v = None) ->
  multi_connection_lookup T t = l.
Proof.
  intros H Hl. unfold multi_connection_lookup. rewrite H. simpl.
  now apply map_lookup_plain.
Qed.

Lemma multi_connection_lookup_plain_list_witness :
  multi_connection_lookup seedbox "seedbox" = ["10.0.0.1:80"; "10.0.0.2:80"].
Proof.
  apply (multi_connection_lookup_plain_list seedbox "seedbox").
  - vm_compute. reflexivity.
  - intros v [<-|[<-|[]]]; vm_compute; reflexivity.
Defined.

End ConnectionExtras.

(** ** More on the run skeleton *)

Module LifecycleExtras.
Import Py Options Lifecycle Samples LifecycleFacts.

Lemma with_parser_idem p q w : with_parser p (with_parser q w) = with_parser p w.
Proof. now destruct w. Qed.
Lemma with_parser_same w : with_parser (parser w) w = w.
Proof. now destruct w. Qed.
Lemma parser_with_parser p w : parser (with_parser p w) = p.
Proof. now destruct w. Qed.

(** *** Registration *)

Lemma add_bool_option_appends p a kw p' :
  add_bool_option p a kw = Ok p' ->
  exists kw', p' = (p ++ [Argument a kw'])%list.
Proof.
  unfold add_bool_option. intros H.
  apply OptionFacts.rbind_ok in H as (d & _ & H).
  apply OptionFacts.rbind_ok in H as (h & _ & H). injection H as <-.
  unfold add_argument. eauto.
Qed.

Lemma add_value_option_appends p a kw p' :
  add_value_option p a kw = Ok p' ->
  exists kw', p' = (p ++ [Argument (removelast a) kw'])%list.
Proof.
  unfold add_value_option. intros H.
  apply OptionFacts.rbind_ok in H as (k1 & _ & H).
  apply OptionFacts.rbind_ok in H as (k2 & _ & H). injection H as <-.
  unfold add_argument. eauto.
Qed.

Lemma long_option_dest_error a e :
  long_option_dest a = Raise e -> registration_error e.
Proof.
  unfold long_option_dest.
  destruct (List.filter (String.prefix "--") a); [|discriminate].
  now intros [= <-].
Qed.

Lemma rbind_raise {A B} (r : result A) (k : A -> result B) e :
  rbind r k = Raise e -> r = Raise e \/ exists a, r = Ok a /\ k a = Raise e.
Proof. destruct r as [a|e']; simpl; [eauto|intros [= <-]; auto]. Qed.

Lemma add_bool_option_error p a kw e :
  add_bool_option p a kw = Raise e -> registration_error e.
Proof.
  unfold add_bool_option. intros H.
  apply rbind_raise in H as [H|(d & _ & H)]; [now apply long_option_dest_error in H|].
  apply rbind_raise in H as [H|(h & _ & H)]; [|discriminate].
  unfold getitem in H. destruct (kw !! "help"); [discriminate|].
  now injection H as <-.
Qed.

Lemma add_value_option_error p a kw e :
  add_value_option p a kw = Raise e -> registration_error e.
Proof.
  unfold add_value_option. intros H.
  apply rbind_raise in H as [H|(k1 & _ & H)].
  - unfold describe in H.
    apply rbind_raise in H as [H|(m & _ & H)].
    { destruct (last a); [discriminate|]. now injection H as <-. }
    apply rbind_raise in H as [H|(k2 & _ & H)].
    { destruct (_ !! "dest"); [discriminate|].
      apply rbind_raise in H as [H|(d & _ & H)]; [|discriminate].
      now apply long_option_dest_error in H. }
    destruct (k2 !! "default") as [d|]; [|discriminate].
    destruct (truthy d); [|discriminate].
    apply rbind_raise in H as [H|(h & _ & H)].
    { unfold getitem in H. destruct (k2 !! "help"); [discriminate|].
      now injection H as <-. }
    apply rbind_raise in H as [H|(h' & _ & H)]; [|discriminate].
    destruct h; simpl in H; try discriminate; now injection H as <-.
  - apply rbind_raise in H as [H|(k2 & _ & H)]; [|discriminate].
    unfold drop_type_for_choices in H.
    destruct (k1 !! "choices"); [|discriminate].
    destruct (k1 !! "type"); [discriminate|]. now injection H as <-.
Qed.

Lemma declare_eq d w :
  declare d w
  = match (match d with
           | BoolOption a kw => add_bool_option (parser w) a kw
           | ValueOption a kw => add_value_option (parser w) a kw
           end) with
    | Ok p => ([], with_parser p w, Ok tt)
    | Raise e => ([], w, Raise e)
    end.
Proof.
  unfold declare, bind, gets, lift, modify. simpl.
  now destruct d; [destruct (add_bool_option _ _ _)|destruct (add_value_option _ _ _)].
Qed.

(** The declarations are registered in their order, one argument each,
    up to the first that raises. *)
Lemma declare_all_nf ds w :
  exists added r,
    declare_all ds w = ([], with_parser (parser w ++ added)%list w, r)
    /\ match r with
       | Ok _ => Forall2 declared ds added
       | Raise e => registration_error e /\ (length added < length ds)%nat
       end.
Proof.
  revert w. induction ds as [|d ds IH]; intros w.
  - exists [], (Ok tt). simpl. rewrite app_nil_r, with_parser_same.
    split; [reflexivity|constructor].
  - simpl. unfold bind. rewrite declare_eq.
    destruct (match d with
              | BoolOption a kw => add_bool_option (parser w) a kw
              | ValueOption a kw => add_value_option (parser w) a kw
              end) as [p|e] eqn:E.
    + assert (exists x, p = (parser w ++ [x])%list /\ declared d x) as (x & -> & Dx).
      { destruct d as [a kw|a kw].
        - apply add_bool_option_appends in E as [kw' ->].
          eexists. split; reflexivity.
        - apply add_value_option_appends in E as [kw' ->].
          eexists. split; reflexivity. }
      destruct (IH (with_parser (parser w ++ [x])%list w)) as (added & r & -> & R).
      exists (x :: added), r. rewrite parser_with_parser, with_parser_idem.
      rewrite <- app_assoc. simpl. split; [reflexivity|].
      destruct r as [[]|e]; [now constructor|]. destruct R. split; [assumption|lia].
    + exists [], (Raise e). rewrite app_nil_r, with_parser_same.
      split; [reflexivity|]. split; [|simpl; lia].
      destruct d; [now apply add_bool_option_error in E
                  |now apply add_value_option_error in E].
Qed.

Lemma register_options_nf t w :
  exists added r,
    register_options t w
    = ([], with_parser (parser w ++ logging_flags ++ inherited_options (base t)
                          ++ added)%list w, r)
    /\ match r with
       | Ok _ => Forall2 declared (declares t) added
       | Raise e => registration_error e /\ (length added < length (declares t))%nat
       end.
Proof.
  assert (P : forall p (k : unit -> M unit) (w0 : world),
            bind (modify (fun w => with_parser (p w) w)) k w0
            = k tt (with_parser (p w0) w0)).
  { intros p k w0. unfold bind, modify. simpl.
    now destruct (k tt (with_parser (p w0) w0)) as [[ev w1] r]. }
  unfold register_options, add_options, parser_add_argument.
  rewrite !P. unfold add_argument.
  destruct (base t); [unfold bind, ret; simpl|rewrite P; simpl].
  - match goal with |- context [declare_all _ ?w0] =>
      destruct (declare_all_nf (declares t) w0) as (added & r & E & R) end.
    rewrite E. exists added, r. rewrite !parser_with_parser, !with_parser_idem.
    rewrite <- !app_assoc. simpl. split; [reflexivity|exact R].
  - match goal with |- context [declare_all _ ?w0] =>
      destruct (declare_all_nf (declares t) w0) as (added & r & E & R) end.
    rewrite E. exists added, r. rewrite !parser_with_parser, !with_parser_idem.
    rewrite <- !app_assoc. simpl. split; [reflexivity|exact R].
Qed.


Lemma registration_error_unclassified e : registration_error e -> unclassified e.
Proof. now destruct e. Qed.

Lemma registration_error_status e : registration_error e -> exit_status (Raise e) = 1.
Proof. now destruct e. Qed.

(** [parse_options], spelt out: the registrations, then the parser. *)
Lemma parse_options_nf t env w :
  exists added r,
    let p := (parser w ++ logging_flags ++ inherited_options (base t) ++ added)%list in
    let o := if intermixed_args t then parse_intermixed_args env p
             else parse_args env p in
    register_options t w = ([], with_parser p w, r)
    /\ parse_options t env w
       = match r with
         | Ok _ => (shown o, with_parser p w, outcome o)
         | Raise e => ([], with_parser p w, Raise e)
         end
    /\ match r with
       | Ok _ => Forall2 declared (declares t) added
       | Raise e => registration_error e /\ (length added < length (declares t))%nat
       end.
Proof.
  destruct (register_options_nf t w) as (added & r & E & R).
  exists added, r. cbv zeta. split; [exact E|]. split; [|exact R].
  assert (P : parse_options t env w
              = bind (register_options t) (fun _ =>
                  bind (gets parser) (fun p =>
                    argparse (if intermixed_args t then parse_intermixed_args env p
                              else parse_args env p))) w).
  { unfold parse_options, register_options, parser_add_argument, bind, modify,
      gets, argparse. simpl.
    destruct (add_options t _) as [[ev w4] [[]|e]]; simpl; reflexivity. }
  rewrite P. unfold bind at 1. rewrite E.
  destruct r as [[]|e]; [|reflexivity].
  unfold bind, gets, argparse. cbn [fst snd]. now rewrite parser_with_parser.
Qed.

Lemma shown_no_set_level (o : parsed) (z : Z) : ~ In (EvSetLevel z) (shown o).
Proof.
  unfold shown. induction (printed o) as [|x l IH]; simpl; [tauto|].
  intros [H|H]; [discriminate|contradiction].
Qed.

Section Extras.
Variables EX_SOFTWARE EX_TEMPFAIL EX_IOERR EPIPE : Z.
Variable format_exc : exn -> string.
Variable t : tool.
Variable env : environment.

Local Abbreviation run := (run EX_SOFTWARE EX_TEMPFAIL EX_IOERR EPIPE format_exc t env).
Local Abbreviation on_failure := (on_failure EX_SOFTWARE EX_TEMPFAIL EX_IOERR EPIPE format_exc).
Local Abbreviation guarded := (guarded EX_SOFTWARE EX_TEMPFAIL EX_IOERR EPIPE format_exc t env).
Local Abbreviation fatal := (fatal EX_SOFTWARE).

Lemma on_failure_unclassified e w :
  unclassified e -> on_failure e w = ([], w, Raise e).
Proof. destruct e; simpl; intros H; try destruct H; reflexivity. Qed.

Lemma on_failure_raises e w : exists e', (on_failure e w).2 = Raise e'.
Proof.
  destruct e; simpl; eauto.
  destruct (decide (errno = Some EPIPE)); simpl; eauto.
Qed.

Lemma get_options_parse_failure w ev w1 e :
  parse_options t env w = (ev, w1, Raise e) ->
  get_options t env w = (ev, w1, Raise e).
Proof.
  intros H. rewrite get_options_eq.
  assert (E : ScriptBase_get_options t env w = (ev, w1, Raise e)).
  { rewrite ScriptBase_get_options_eq. unfold bind at 1. now rewrite H. }
  destruct (base t); [exact E|]. unfold bind. now rewrite E.
Qed.

Lemma attempt_parse_failure w ev w1 e :
  parse_options t env w = (ev, w1, Raise e) ->
  attempt t env w = (ev, w1, Raise e).
Proof.
  intros H. unfold attempt, bind. now rewrite (get_options_parse_failure w ev w1 e H).
Qed.

(** X10: when the parser does not return and what it raises is none of
    the failures [run] classifies (the [SystemExit] of a usage error or
    of [--version]), the run does nothing but what came before the
    parser raised (the text argparse wrote) and [logging.shutdown()];
    the exception leaves [run] as it came, and nothing of [self] but
    the parser has changed: no options, no engine, no subcommand. *)
Theorem run_parse_failure (w w1 : world) (ev : list event) (e : exn) :
  options w = None ->
  parse_options t env w = (ev, w1, Raise e) ->
  unclassified e ->
  run w = ((ev ++ [EvShutdown])%list, w1, Raise e)
  /\ w1 = with_parser (parser w1) w
  /\ (ev = []
      \/ ev = shown (if intermixed_args t
                     then parse_intermixed_args env (parser w1)
                     else parse_args env (parser w1))).
Proof.
  intros Ho H U.
  destruct (parse_options_nf t env w) as (added & r & _ & P & _).
  cbv zeta in P. rewrite H in P.
  assert (W : w1 = with_parser (parser w1) w).
  { destruct r as [[]|e']; inversion P; subst;
      now rewrite parser_with_parser. }
  split; [|split; [exact W|]].
  - rewrite run_eq. unfold Lifecycle.guarded, try_except.
    rewrite (attempt_parse_failure w ev w1 e H), (on_failure_unclassified e w1 U).
    simpl. rewrite app_nil_r. unfold closing.
    rewrite W. destruct w; simpl in *. subst. reflexivity.
  - destruct r as [[]|e']; inversion P; subst; [right|now left].
    now rewrite parser_with_parser.
Qed.

(** X11: [fatal] logs exactly one record, at level [CRITICAL], and
    changes nothing; it returns to its caller only when an exception is
    passed and the root logger is enabled for [DEBUG], and otherwise
    ends in [sys.exit(EX_SOFTWARE)]. *)
Theorem fatal_returns_iff (msg : string) (exc : option exn) (w : world) :
  (exists text a, (fatal msg exc w).1 = ([EvLog CRITICAL text a], w))
  /\ ((fatal msg exc w).2 = Ok tt
       <-> is_Some exc /\ (root_level w <= DEBUG)%Z)
  /\ ((fatal msg exc w).2 <> Ok tt
       -> (fatal msg exc w).2 = Raise (SystemExit EX_SOFTWARE)).
Proof.
  destruct exc as [e|]; simpl.
  - unfold Lifecycle.fatal, bind, LOG_log, emit, isEnabledFor, gets, ret, sys_exit,
      raise. simpl.
    destruct (root_level w <=? DEBUG)%Z eqn:E; simpl.
    + apply Z.leb_le in E. split; [eauto|]. split; [split; eauto|]. congruence.
    + apply Z.leb_gt in E. split; [eauto|]. split; [|reflexivity].
      split; [discriminate|]. intros [_ H]. lia.
  - split; [eauto|]. split; [|reflexivity].
    split; [discriminate|]. intros [[? ?] _]. discriminate.
Qed.

(** X12: [run] returns normally exactly when [get_options] and
    [mainloop] returned and the return code is zero: no exception is
    swallowed. *)
Theorem run_returns_iff (w : world) :
  (run w).2 = Ok tt
  <-> exists ev w1, attempt t env w = (ev, w1, Ok tt) /\ return_code w1 = 0.
Proof.
  rewrite run_eq. unfold Lifecycle.guarded, try_except.
  destruct (attempt t env w) as [[ev w1] [[]|e]] eqn:A; simpl.
  - destruct (return_code w1 =? 0)%Z eqn:E; simpl.
    + apply Z.eqb_eq in E. split; eauto.
    + apply Z.eqb_neq in E. split; [discriminate|].
      intros (? & ? & [= <- <-] & H). contradiction.
  - destruct (on_failure_raises e w1) as [e' H].
    destruct (on_failure e w1) as [[ev2 w2] r]; simpl in *. subst r.
    split; [discriminate|]. intros (? & ? & ? & _). discriminate.
Qed.


(** *** The bodies of the phases, spelt out *)

Lemma after_parse_eq (ns : gmap string pyval) (w : world) :
  after_parse ns w
  = match ns !! "args" with
    | None => ([], w, Raise (AttributeError "args"))
    | Some a =>
        let w1 := with_args (Some a) w in
        match ns !! "log_level" with
        | None => ([], w1, Raise (AttributeError "log_level"))
        | Some level =>
            let said := EvLog DEBUG "Options: %s" [LStr (options_text ns)] in
            if truthy level then
              match check_level level with
              | Ok z => ([EvSetLevel z; said], with_root_level z w1, Ok tt)
              | Raise e => ([], w1, Raise e)
              end
            else ([said], w1, Ok tt)
        end
    end.
Proof.
  unfold after_parse, getattr.
  destruct (ns !! "args") as [a|]; [|reflexivity].
  destruct (ns !! "log_level") as [level|]; [|reflexivity].
  unfold bind, modify, setLevel, lift, bind, emit, LOG_log, emit, ret. simpl.
  destruct (truthy level); [|reflexivity].
  destruct (check_level level); reflexivity.
Qed.

Lemma configure_eq (w : world) :
  configure env w
  = match default ∅ (options w) !! "url" with
    | None => ([], w, Raise (AttributeError "url"))
    | Some url =>
        let w1 := if truthy url then with_scgi_url (Some url) w else w in
        match load_custom_py env, RtorrentEngine env with
        | Some e, _ => ([], w1, Raise e)
        | None, Some e => ([], w1, Raise e)
        | None, None => ([], with_engine true w1, Ok tt)
        end
    end.
Proof.
  unfold configure, getattr, bind, gets. simpl.
  destruct (default ∅ (options w) !! "url") as [url|]; [|reflexivity].
  unfold may_raise, modify, raise, ret. simpl.
  destruct (truthy url), (load_custom_py env), (RtorrentEngine env); reflexivity.
Qed.

Lemma mainloop_eq (w : world) :
  mainloop t w
  = match mainloop_body t with
    | None => ([], w, Raise (OtherError "NotImplementedError" EmptyString))
    | Some sc =>
        (map EvTool (effects sc),
         match sets_return_code sc with
         | Some c => with_return_code c w
         | None => w
         end,
         match raises sc with
         | Some e => Raise e
         | None => Ok tt
         end)
    end.
Proof.
  unfold mainloop. destruct (mainloop_body t) as [sc|]; [|reflexivity].
  unfold bind, modify, may_raise, ret, raise. simpl.
  destruct (sets_return_code sc), (raises sc); simpl; now rewrite ?app_nil_r.
Qed.


Lemma ScriptBase_get_options_nf (w : world) :
  ScriptBase_get_options t env w
  = match parse_options t env w with
    | (ev, w1, Raise e) => (ev, w1, Raise e)
    | (ev, w1, Ok ns) =>
        let '(ev2, w2, r) := after_parse ns (with_options (Some ns) w1) in
        ((ev ++ ev2)%list, w2, r)
    end.
Proof.
  rewrite ScriptBase_get_options_eq. unfold bind at 1.
  destruct (parse_options t env w) as [[ev w1] [ns|e]]; [|reflexivity].
  unfold bind, modify. simpl.
  now destruct (after_parse ns (with_options (Some ns) w1)) as [[ev2 w2] r].
Qed.

(** A successful [ScriptBase.get_options], spelt out. *)
Lemma ScriptBase_get_options_ok (w w2 : world) (ev : list event) :
  ScriptBase_get_options t env w = (ev, w2, Ok tt) ->
  exists ns a level pw,
    let o := if intermixed_args t then parse_intermixed_args env pw
             else parse_args env pw in
    parse_options t env w = (shown o, with_parser pw w, Ok ns)
    /\ ns !! "args" = Some a
    /\ ns !! "log_level" = Some level
    /\ let w1 := with_args (Some a) (with_options (Some ns) (with_parser pw w)) in
       let said := EvLog DEBUG "Options: %s" [LStr (options_text ns)] in
       if truthy level then
         exists z, check_level level = Ok z
                   /\ ev = (shown o ++ [EvSetLevel z; said])%list
                   /\ w2 = with_root_level z w1
       else ev = (shown o ++ [said])%list /\ w2 = w1.
Proof.
  rewrite ScriptBase_get_options_nf.
  destruct (parse_options_nf t env w) as (added & r & _ & P & _).
  cbv zeta in P. rewrite P. clear P. destruct r as [[]|e]; [|discriminate].
  set (p := (parser w ++ logging_flags ++ inherited_options (base t) ++ added)%list).
  set (o := if intermixed_args t then parse_intermixed_args env p
            else parse_args env p).
  destruct (outcome o) as [ns|e] eqn:O; [|discriminate].
  rewrite after_parse_eq.
  destruct (ns !! "args") as [a|] eqn:A; [|discriminate].
  destruct (ns !! "log_level") as [level|] eqn:L; [|discriminate].
  intros H. exists ns, a, level, p. cbv zeta. fold o.
  split; [reflexivity|]. split; [exact A|]. split; [exact L|].
  destruct (truthy level).
  - destruct (check_level level) as [z|e]; [|discriminate].
    exists z. now inversion H.
  - now inversion H.
Qed.

(** X13: after a successful [get_options] the root logger has the
    level the command line asked for, and [setLevel] was called, when
    the parsed [log_level] is truthy; when it is not ([None], no flag),
    the level is what it was and [setLevel] was not called. *)
Theorem get_options_log_level (w w1 : world) (ev : list event) :
  get_options t env w = (ev, w1, Ok tt) ->
  exists ns level,
    (parse_options t env w).2 = Ok ns
    /\ ns !! "log_level" = Some level
    /\ if truthy level then
         exists z, check_level level = Ok z /\ root_level w1 = z
                   /\ In (EvSetLevel z) ev
       else root_level w1 = root_level w /\ forall z, ~ In (EvSetLevel z) ev.
Proof.
  rewrite get_options_eq. intros H.
  assert (exists ev2 w2,
            ScriptBase_get_options t env w = (ev2, w2, Ok tt)
            /\ ev = ev2 /\ root_level w1 = root_level w2) as (ev2 & w2 & S & -> & R).
  { destruct (base t); [eauto|]. unfold bind in H.
    destruct (ScriptBase_get_options t env w) as [[ev2 w2] [[]|e]]; [|discriminate].
    rewrite configure_eq in H.
    destruct (default ∅ (options w2) !! "url") as [url|]; [|discriminate].
    destruct (load_custom_py env); [discriminate|].
    destruct (RtorrentEngine env); [discriminate|].
    inversion H; subst. exists ev2, w2. rewrite app_nil_r.
    repeat split. destruct (truthy url), w2; reflexivity. }
  apply ScriptBase_get_options_ok in S as (ns & a & level & pw & P & _ & L & S).
  exists ns, level. rewrite P. split; [reflexivity|]. split; [exact L|].
  rewrite R. cbv zeta in S. destruct (truthy level).
  - destruct S as (z & C & -> & ->). exists z.
    split; [exact C|]. split; [now destruct w|].
    apply in_or_app. right. now left.
  - destruct S as [-> ->]. split; [now destruct w|].
    intros z I. apply in_app_or in I as [I|[I|[]]]; [|discriminate].
    now apply shown_no_set_level in I.
Qed.

(** X14: a successful [get_options] of [ScriptBase] leaves the engine
    and the configured endpoint alone; that of [ScriptBaseWithConfig]
    has loaded the custom configuration, constructed the engine, and
    replaced the configured endpoint by the parsed [url] exactly when
    that is truthy. *)
Theorem get_options_engine (w w1 : world) (ev : list event) :
  get_options t env w = (ev, w1, Ok tt) ->
  match base t with
  | ScriptBase => engine w1 = engine w /\ scgi_url w1 = scgi_url w
  | ScriptBaseWithConfig =>
      engine w1 = true
      /\ load_custom_py env = None
      /\ RtorrentEngine env = None
      /\ exists ns url,
           (parse_options t env w).2 = Ok ns
           /\ ns !! "url" = Some url
           /\ scgi_url w1 = if truthy url then Some url else scgi_url w
  end.
Proof.
  rewrite get_options_eq. intros H. destruct (base t).
  - apply ScriptBase_get_options_ok in H as (ns & a & level & pw & _ & _ & _ & S).
    cbv zeta in S. destruct (truthy level).
    + destruct S as (z & _ & _ & ->). now destruct w.
    + destruct S as [_ ->]. now destruct w.
  - unfold bind in H.
    destruct (ScriptBase_get_options t env w) as [[ev2 w2] [[]|e]] eqn:S;
      [|discriminate].
    rewrite configure_eq in H.
    apply ScriptBase_get_options_ok in S as (ns & a & level & pw & P & _ & _ & S).
    assert (O : options w2 = Some ns /\ scgi_url w2 = scgi_url w).
    { cbv zeta in S. destruct (truthy level).
      - destruct S as (z & _ & _ & ->). now destruct w.
      - destruct S as [_ ->]. now destruct w. }
    destruct O as [O U]. rewrite O in H. simpl in H.
    destruct (ns !! "url") as [url|] eqn:Hu; [|discriminate].
    destruct (load_custom_py env); [discriminate|].
    destruct (RtorrentEngine env); [discriminate|].
    inversion H; subst.
    split; [destruct (truthy url), w2; reflexivity|].
    split; [reflexivity|]. split; [reflexivity|].
    exists ns, url. rewrite P. split; [reflexivity|]. split; [exact Hu|].
    rewrite <- U. destruct (truthy url), w2; reflexivity.
Qed.

Lemma keeps_startup_get_options : keeps startup (get_options t env).
Proof.
  rewrite get_options_eq.
  assert (S : keeps startup (ScriptBase_get_options t env)).
  { rewrite ScriptBase_get_options_eq.
    apply keeps_bind; [apply keeps_parse_options; now intros p []|intros ns].
    apply keeps_bind; [apply keeps_modify; now intros []|intros _].
    unfold after_parse, getattr, setLevel. steps. }
  destruct (base t); [exact S|].
  apply keeps_bind; [exact S|intros _].
  unfold configure, getattr, may_raise. steps.
Qed.

Lemma keeps_clock_get_options : keeps clock (get_options t env).
Proof.
  rewrite get_options_eq.
  assert (S : keeps clock (ScriptBase_get_options t env)).
  { rewrite ScriptBase_get_options_eq.
    apply keeps_bind; [apply keeps_parse_options; now intros p []|intros ns].
    apply keeps_bind; [apply keeps_modify; now intros []|intros _].
    unfold after_parse, getattr, setLevel. steps. }
  destruct (base t); [exact S|].
  apply keeps_bind; [exact S|intros _].
  unfold configure, getattr, may_raise. steps.
Qed.

Lemma get_options_ok_options (w w1 : world) (ev : list event) :
  get_options t env w = (ev, w1, Ok tt) -> is_Some (options w1).
Proof.
  intros G.
  pose proof (options_get_options t env w) as O. rewrite G in O. simpl in O.
  rewrite O. unfold options_after_parsing.
  destruct (parse_options t env w) as [[ev0 w0] [ns|e]] eqn:P; simpl; [eauto|].
  rewrite (get_options_parse_failure w ev0 w0 e P) in G. discriminate.
Qed.

(** X15: a tool that does not override [mainloop] never completes a
    run. Once [get_options] has returned, the run consists of what
    [get_options] did, the total-time record and
    [logging.shutdown()], and ends in [NotImplementedError], with exit
    status 1. *)
Theorem run_without_mainloop (w : world) :
  mainloop_body t = None ->
  (run w).2 <> Ok tt
  /\ forall ev w1, get_options t env w = (ev, w1, Ok tt) ->
       run w = ((ev ++ [EvLog STD_LOG_LEVEL "Total time: %.3f seconds."
                          [LFloat (SFsub PyFloat.prec PyFloat.emax
                                     (clock w) (startup w))];
                        EvShutdown])%list, w1,
                Raise (OtherError "NotImplementedError" EmptyString))
       /\ exit_status (run w).2 = 1.
Proof.
  intros Hm.
  assert (A : forall ev w1, get_options t env w = (ev, w1, Ok tt) ->
            attempt t env w
            = (ev, w1, Raise (OtherError "NotImplementedError" EmptyString))).
  { intros ev w1 G. unfold attempt, bind. rewrite G, mainloop_eq, Hm.
    now rewrite app_nil_r. }
  split.
  - rewrite run_eq. unfold Lifecycle.guarded, try_except.
    destruct (attempt t env w) as [[ev w1] [[]|e]] eqn:E.
    + unfold attempt, bind in E.
      destruct (get_options t env w) as [[ev0 w0] [[]|e]]; [|discriminate].
      rewrite mainloop_eq, Hm in E. discriminate.
    + destruct (on_failure_raises e w1) as [e' H].
      destruct (on_failure e w1) as [[ev2 w2] r]; simpl in *. now subst r.
  - intros ev w1 G.
    assert (R : run w
                = ((ev ++ closing w1)%list, w1,
                   Raise (OtherError "NotImplementedError" EmptyString))).
    { rewrite run_eq. unfold Lifecycle.guarded, try_except.
      rewrite (A ev w1 G). simpl. now rewrite app_nil_r. }
    rewrite R. split; [|reflexivity]. unfold closing.
    rewrite bool_decide_eq_true_2 by exact (get_options_ok_options w w1 ev G).
    pose proof (keeps_startup_get_options w) as S.
    pose proof (keeps_clock_get_options w) as C.
    rewrite G in S, C. simpl in S, C. now rewrite S, C.
Qed.

End Extras.


Section MoreExtras.
Variables EX_SOFTWARE EX_TEMPFAIL EX_IOERR EPIPE : Z.
Variable format_exc : exn -> string.
Variable t : tool.
Variable env : environment.

Local Abbreviation run := (run EX_SOFTWARE EX_TEMPFAIL EX_IOERR EPIPE format_exc t env).
Local Abbreviation on_failure := (on_failure EX_SOFTWARE EX_TEMPFAIL EX_IOERR EPIPE format_exc).
Local Abbreviation guarded := (guarded EX_SOFTWARE EX_TEMPFAIL EX_IOERR EPIPE format_exc t env).

(** X16: when [get_options] gets a namespace from the parser, it has
    until then written nothing of its own and changed only the parser,
    by appending: first the three logging flags, then the [--url]
    option of a tool with configuration, then one argument per
    declaration of the tool, in order; the parser was called on exactly
    that, and the only output is what argparse wrote. *)
Theorem parse_options_parser (w w1 : world) (ev : list event)
    (ns : gmap string pyval) :
  parse_options t env w = (ev, w1, Ok ns) ->
  exists added : list argument,
    let p := (parser w ++ logging_flags ++ inherited_options (base t) ++ added)%list in
    let o := if intermixed_args t then parse_intermixed_args env p
             else parse_args env p in
    Forall2 declared (declares t) added
    /\ w1 = with_parser p w
    /\ outcome o = Ok ns
    /\ ev = shown o.
Proof.
  intros H. destruct (parse_options_nf t env w) as (added & r & _ & P & R).
  cbv zeta in P. rewrite H in P. exists added. cbv zeta.
  destruct r as [[]|e]; [|discriminate].
  split; [exact R|]. now inversion P.
Qed.

(** X17: when registering the options raises, the run ends before the
    command line is parsed: its only effect is [logging.shutdown()],
    the error leaves [run] unclassified and the exit status is 1,
    whatever the command line and the configuration are. *)
Theorem run_registration_failure (w : world) (e : exn) :
  options w = None ->
  (register_options t w).2 = Raise e ->
  run w = ([EvShutdown], (register_options t w).1.2, Raise e)
  /\ exit_status (run w).2 = 1.
Proof.
  intros Ho H.
  destruct (parse_options_nf t env w) as (added & r & E & P & R).
  cbv zeta in E, P. rewrite E in *. simpl in H. subst r. destruct R as [R _].
  assert (Q : run w
              = ([EvShutdown],
                 with_parser (parser w ++ logging_flags
                                ++ inherited_options (base t) ++ added)%list w,
                 Raise e)).
  { rewrite run_eq. unfold Lifecycle.guarded, try_except.
    rewrite (attempt_parse_failure t env w _ _ e P).
    rewrite (on_failure_unclassified _ _ _ _ _ e _
               (registration_error_unclassified e R)).
    simpl. unfold closing. destruct w; simpl in *. now subst. }
  rewrite Q. simpl. split; [reflexivity|]. now apply registration_error_status.
Qed.

Lemma keeps_startup_guarded : keeps startup guarded.
Proof.
  apply keeps_try_except; [|intros e; apply keeps_on_failure].
  apply keeps_bind;
    [apply (keeps_startup_get_options t env)|intros _].
  intros w. rewrite (mainloop_eq t w).
  destruct (mainloop_body t) as [sc|]; [|reflexivity].
  destruct (sets_return_code sc), w; reflexivity.
Qed.

Lemma keeps_clock_guarded : keeps clock guarded.
Proof.
  apply keeps_try_except; [|intros e; apply keeps_on_failure].
  apply keeps_bind;
    [apply (keeps_clock_get_options t env)|intros _].
  intros w. rewrite (mainloop_eq t w).
  destruct (mainloop_body t) as [sc|]; [|reflexivity].
  destruct (sets_return_code sc), w; reflexivity.
Qed.

(** X18: when the parser returns, the run ends with the total-time
    record followed by [logging.shutdown()], whether the subcommand
    returns or raises; the time logged is what [time.time()] returns
    in the [finally] clause minus the startup stamp the object had when
    the run began, and the run leaves that stamp as it was. *)
Theorem run_total_time_value (w : world) :
  options w = None ->
  parsing_completes t env w = true ->
  startup (run w).1.2 = startup w
  /\ exists pre : list event,
       (run w).1.1
       = (pre ++ [EvLog STD_LOG_LEVEL "Total time: %.3f seconds."
                    [LFloat (SFsub PyFloat.prec PyFloat.emax
                               (clock w) (startup w))];
                  EvShutdown])%list.
Proof.
  intros Ho Hp. rewrite run_eq.
  pose proof (options_guarded EX_SOFTWARE EX_TEMPFAIL EX_IOERR EPIPE format_exc
                t env w) as O.
  pose proof (keeps_startup_guarded w) as S.
  pose proof (keeps_clock_guarded w) as C.
  apply (parsing_completes_options t env w Ho) in Hp. rewrite <- O in Hp.
  destruct (guarded w) as [[ev w1] r]. simpl in *.
  split; [exact S|]. exists ev.
  unfold closing. rewrite bool_decide_eq_true_2 by exact Hp.
  now rewrite S, C.
Qed.

End MoreExtras.

Lemma run_parse_failure_witness :
  run 70 75 74 32 traceback (job None) usage_error started
  = ([EvPrint Stderr "usage: tool [options] <log-base>...";
      EvPrint Stderr "tool: error: unrecognized arguments: --bogus";
      EvShutdown],
     (parse_options (job None) usage_error started).1.2,
     Raise (SystemExit 2)).
Proof.
  destruct (run_parse_failure 70 75 74 32 traceback (job None) usage_error started
              (parse_options (job None) usage_error started).1.2
              (shown complaint) (SystemExit 2)) as [R _].
  - reflexivity.
  - vm_compute. reflexivity.
  - exact I.
  - rewrite R. reflexivity.
Defined.

Lemma run_without_mainloop_witness :
  let g := get_options bare parses started in
  run 70 75 74 32 traceback bare parses started
  = ((g.1.1 ++ [EvLog STD_LOG_LEVEL "Total time: %.3f seconds."
                  [LFloat (SFsub PyFloat.prec PyFloat.emax
                             (clock started) (startup started))];
                EvShutdown])%list, g.1.2,
     Raise (OtherError "NotImplementedError" EmptyString))
  /\ exit_status (run 70 75 74 32 traceback bare parses started).2 = 1.
Proof.
  destruct (run_without_mainloop 70 75 74 32 traceback bare parses started eq_refl)
    as [_ H].
  apply H. vm_compute. reflexivity.
Defined.

Lemma parse_options_parser_witness :
  let r := parse_options (job None) parses started in
  exists added : list argument,
    let p := (parser started ++ logging_flags
                ++ inherited_options ScriptBaseWithConfig ++ added)%list in
    Forall2 declared [ValueOption output_format with_choices_and_type] added
    /\ r.1.2 = with_parser p started
    /\ outcome (parse_args parses p) = Ok no_options
    /\ r.1.1 = shown (parse_args parses p).
Proof.
  apply (parse_options_parser (job None) parses started).
  vm_compute. reflexivity.
Defined.

Lemma run_registration_failure_witness :
  run 70 75 74 32 traceback misdeclared parses started
  = ([EvShutdown], (register_options misdeclared started).1.2,
     Raise (KeyError "type"))
  /\ exit_status (run 70 75 74 32 traceback misdeclared parses started).2 = 1.
Proof.
  apply (run_registration_failure 70 75 74 32 traceback misdeclared parses started).
  - reflexivity.
  - vm_compute. reflexivity.
Defined.

Lemma get_options_log_level_witness :
  let g := get_options (job None) parses_debug started in
  exists ns level,
    (parse_options (job None) parses_debug started).2 = Ok ns
    /\ ns !! "log_level" = Some level
    /\ if truthy level then
         exists z, check_level level = Ok z /\ root_level g.1.2 = z
                   /\ In (EvSetLevel z) g.1.1
       else root_level g.1.2 = root_level started
            /\ forall z, ~ In (EvSetLevel z) g.1.1.
Proof.
  apply (get_options_log_level (job None) parses_debug started).
  vm_compute. reflexivity.
Defined.

Lemma get_options_engine_witness :
  let g := get_options (job None) parses_debug started in
  engine g.1.2 = true
  /\ load_custom_py parses_debug = None
  /\ RtorrentEngine parses_debug = None
  /\ exists ns url,
       (parse_options (job None) parses_debug started).2 = Ok ns
       /\ ns !! "url" = Some url
       /\ scgi_url g.1.2 = if truthy url then Some url else scgi_url started.
Proof.
  assert (H : get_options (job None) parses_debug started
              = ((get_options (job None) parses_debug started).1.1,
                 (get_options (job None) parses_debug started).1.2, Ok tt))
    by (vm_compute; reflexivity).
  exact (get_options_engine (job None) parses_debug started _ _ H).
Defined.

Lemma run_total_time_value_witness :
  let r := run 70 75 74 32 traceback (job (Some KeyboardInterrupt)) parses started in
  startup r.1.2 = startup started
  /\ exists pre : list event,
       r.1.1
       = (pre ++ [EvLog STD_LOG_LEVEL "Total time: %.3f seconds."
                    [LFloat (SFsub PyFloat.prec PyFloat.emax
                               (clock started) (startup started))];
                  EvShutdown])%list.
Proof.
  apply (run_total_time_value 70 75 74 32 traceback (job (Some KeyboardInterrupt))
           parses started); [reflexivity|vm_compute; reflexivity].
Defined.

End LifecycleExtras.
